(** * McpServerManager: session registry and tool query engine

    A shallow embedding of [src/server-manager.ts].  The manager keeps a
    JavaScript [Map] from server names to protocol clients and offers
    connect / disconnect / list / search operations on top of it.

    Conventions of the embedding:
    - a promise-returning method becomes a function in the state-and-exception
      monad [M]; [await] is sequencing, a rejected promise is [Throw];
    - the [Map] is an insertion-ordered association list with the operations
      of the ECMAScript [Map] written out;
    - values of TypeScript type [any] are elements of [JsValue];
    - everything owned by the JavaScript runtime or by the protocol SDK
      (regular expressions, URL parsing, the handshake) is an operation of
      the class [Runtime]; theorems hold for every instance. *)

From stdpp Require Import base option strings list gmap.
From Stdlib Require Import ZArith Ascii.

Open Scope string_scope.

(** ** JavaScript values and exceptions *)

#[warnings="-register-all"] Inductive JsValue : Type :=
| JUndefined
| JNull
| JBool (b : bool)
| JNum (z : Z)
| JStr (s : string)
| JArr (items : list JsValue)
| JObj (fields : list (string * JsValue)).

Inductive ErrorClass := ErrorE | TypeErrorE | SyntaxErrorE.

Record JsError := mkError { err_class : ErrorClass; message : string }.

Inductive Result (A : Type) : Type :=
| Ok (a : A)
| Throw (e : JsError).
Arguments Ok {A} a.
Arguments Throw {A} e.

Definition newError (msg : string) : JsError := mkError ErrorE msg.

(** Truthiness (ToBoolean). *)
Definition truthy (v : JsValue) : bool :=
  match v with
  | JUndefined | JNull => false
  | JBool b => b
  | JNum z => negb (z =? 0)%Z
  | JStr s => negb (String.eqb s "")
  | JArr _ | JObj _ => true
  end.

Definition isArray (v : JsValue) : bool :=
  match v with JArr _ => true | _ => false end.

Fixpoint assoc {A} (k : string) (l : list (string * A)) : option A :=
  match l with
  | [] => None
  | (k', v) :: l' => if String.eqb k' k then Some v else assoc k l'
  end.

Definition describe (v : JsValue) : string :=
  match v with JNull => "null" | _ => "undefined" end.

(** Property read [v.k] for the two property names the manager reads on
    upstream data.  Reading a property of [undefined] or [null] throws a
    TypeError; primitives and arrays have no such own property. *)
Definition getProp (v : JsValue) (k : string) : Result JsValue :=
  match v with
  | JUndefined | JNull =>
      Throw (mkError TypeErrorE
        ("Cannot read properties of " ++ describe v ++ " (reading '" ++ k ++ "')"))
  | JObj fields => Ok (default JUndefined (assoc k fields))
  | _ => Ok JUndefined
  end.

Definition hasField (k : string) (v : JsValue) : bool :=
  match v with
  | JObj fields => match assoc k fields with Some _ => true | None => false end
  | _ => false
  end.

Definition nullish (v : JsValue) : bool :=
  match v with JUndefined | JNull => true | _ => false end.

(** [v.k] where it cannot throw. *)
Definition prop (v : JsValue) (k : string) : JsValue :=
  match v with
  | JObj fields => default JUndefined (assoc k fields)
  | _ => JUndefined
  end.

(** Decimal rendering of an integer, as Number.prototype.toString does for
    integral values. *)
Fixpoint digits (fuel : nat) (n : N) (acc : string) : string :=
  match fuel with
  | O => acc
  | S fuel' =>
      let d := String (ascii_of_N (48 + n mod 10)) acc in
      if (n <? 10)%N then d else digits fuel' (n / 10)%N d
  end.

Definition showZ (z : Z) : string :=
  match z with
  | Z0 => "0"
  | Zpos p => digits (S (Pos.to_nat p)) (Npos p) ""
  | Zneg p => "-" ++ digits (S (Pos.to_nat p)) (Npos p) ""
  end.

Fixpoint join (sep : string) (l : list string) : string :=
  match l with
  | [] => ""
  | [x] => x
  | x :: l' => x ++ sep ++ join sep l'
  end.

(** ToString, applied by [RegExp.prototype.test] to its argument. *)
Fixpoint toString (v : JsValue) : string :=
  match v with
  | JUndefined => "undefined"
  | JNull => "null"
  | JBool true => "true"
  | JBool false => "false"
  | JNum z => showZ z
  | JStr s => s
  | JArr items =>
      join "," (List.map (fun x => match x with
                                   | JUndefined | JNull => ""
                                   | _ => toString x
                                   end) items)
  | JObj _ => "[object Object]"
  end.

(** ** Connection parameters and transports *)

(** Modelled from the spec: the declarations of [ConnectMcpParams] and
    [McpServerConfig] live in [./types.js], which is not among the sources.
    Section 3 of the specification lists the fields: an optional kind, and
    per kind [command], [args], [env] or [url], [headers].  Every field is
    optional here because [connectToServer] tests each of them. *)
Record ConnectParams := mkParams {
  p_type : option string;
  p_command : option string;
  p_args : option (list string);
  p_env : option (gmap string string);
  p_url : option string;
  p_headers : option (gmap string string);
}.

Inductive Transport :=
| StdioClientTransport (command : string) (args : list string)
                       (env : gmap string string)
| StreamableHTTPClientTransport (url : string)
                                (requestInit : option (gmap string string)).

(** A connected protocol client, seen through the answers its upstream gives
    to the requests one manager operation sends it. *)
Record Client := mkClient {
  client_name : string;
  client_listTools : Result JsValue;
  client_callTool : string -> JsValue -> Result JsValue;
  client_close : Result unit;
}.

(** ** The runtime the manager runs on *)

Class Runtime := {
  (** compiled pattern *)
  Matcher : Type;
  (** [new RegExp(pattern, flags)]: the engine's diagnostic, or a matcher;
      the boolean is the [i] flag *)
  regexp_compile : string -> bool -> string + Matcher;
  (** leftmost match starting at or after an index: the index just past it *)
  regexp_search : Matcher -> string -> nat -> option nat;
  (** [new URL(s)]: the normalised href, or nothing for an invalid URL *)
  url_parse : string -> option string;
  (** [process.env] *)
  process_env : gmap string string;
  (** [client.connect(transport)] for the client of that name *)
  client_connect : string -> Transport -> Result Client;
}.

(** A [RegExp] object: the compiled pattern, the [g] flag and the mutable
    [lastIndex] property. *)
Record RegExp `{Runtime} := mkRegExp {
  re_matcher : Matcher;
  re_global : bool;
  lastIndex : nat;
}.

(** ** Manager state and the monad of its methods *)

(** A request handed to the protocol SDK. *)
Inductive Request :=
| ReqConnect (name : string) (transport : Transport)
| ReqListTools (client : Client)
| ReqCallTool (client : Client) (toolName : string) (args : JsValue)
| ReqClose (client : Client).

(** [clients] is the private field of the class; [wire] records, in order,
    the requests that left the process. *)
Record Manager := mkManager {
  clients : list (string * Client);
  wire : list Request;
}.

Definition M (A : Type) : Type := Manager -> Result A * Manager.

#[global] Instance Result_ret : MRet Result := fun A a => Ok a.
#[global] Instance Result_bind : MBind Result := fun A B f r =>
  match r with Ok a => f a | Throw e => Throw e end.

#[global] Instance M_ret : MRet M := fun A a m => (Ok a, m).
#[global] Instance M_bind : MBind M := fun A B f c m =>
  match c m with
  | (Ok a, m') => f a m'
  | (Throw e, m') => (Throw e, m')
  end.

Definition throw {A} (e : JsError) : M A := fun m => (Throw e, m).

Definition lift {A} (r : Result A) : M A := fun m => (r, m).

(** [try { body } catch (error) { handler }] *)
Definition try_catch {A} (body : M A) (handler : JsError -> M A) : M A :=
  fun m =>
    match body m with
    | (Ok a, m') => (Ok a, m')
    | (Throw e, m') => handler e m'
    end.

Definition send (r : Request) (m : Manager) : Manager :=
  mkManager (clients m) (wire m ++ [r]).

(** ** ECMAScript [Map] on an insertion-ordered association list *)

Definition Map_get {A} (k : string) (l : list (string * A)) : option A :=
  assoc k l.

Definition Map_has {A} (k : string) (l : list (string * A)) : bool :=
  match assoc k l with Some _ => true | None => false end.

(** An existing key keeps its position; a new key goes last. *)
Fixpoint Map_set {A} (k : string) (v : A) (l : list (string * A)) :
    list (string * A) :=
  match l with
  | [] => [(k, v)]
  | (k', v') :: l' =>
      if String.eqb k' k then (k, v) :: l' else (k', v') :: Map_set k v l'
  end.

Fixpoint Map_delete {A} (k : string) (l : list (string * A)) :
    list (string * A) :=
  match l with
  | [] => []
  | (k', v') :: l' =>
      if String.eqb k' k then l' else (k', v') :: Map_delete k l'
  end.

Definition Map_keys {A} (l : list (string * A)) : list string :=
  List.map fst l.

(** A [Map] never holds a key twice. *)
Definition Map_wf {A} (l : list (string * A)) : Prop := NoDup (Map_keys l).

(** ** The methods of [McpServerManager] *)

Section Methods.
Context `{RT : Runtime}.

Definition sdk_connect (name : string) (t : Transport) : M Client :=
  fun m => (client_connect name t, send (ReqConnect name t) m).

Definition sdk_listTools (c : Client) : M JsValue :=
  fun m => (client_listTools c, send (ReqListTools c) m).

Definition sdk_callTool (c : Client) (toolName : string) (args : JsValue) :
    M JsValue :=
  fun m => (client_callTool c toolName args, send (ReqCallTool c toolName args) m).

Definition sdk_close (c : Client) : M unit :=
  fun m => (client_close c, send (ReqClose c) m).

Definition nonEmpty (o : option string) : option string :=
  match o with
  | Some s => if String.eqb s "" then None else Some s
  | None => None
  end.

Definition alreadyConnected (serverName : string) : JsError :=
  newError ("Already connected to server '" ++ serverName ++ "'.").

Definition notConnected (serverName : string) : JsError :=
  newError ("Not connected to server '" ++ serverName ++ "'.").

Definition requiresUrl (serverName : string) : JsError :=
  newError ("HTTP server '" ++ serverName ++ "' requires a URL.").

Definition requiresCommand (serverName : string) : JsError :=
  newError ("Stdio server '" ++ serverName ++ "' requires a command.").

Definition connectFailed (serverName : string) (e : JsError) : JsError :=
  newError ("Failed to connect to server '" ++ serverName ++ "': " ++ message e).

Definition disconnectFailed (serverName : string) (e : JsError) : JsError :=
  newError ("Failed to disconnect from server '" ++ serverName ++ "': "
            ++ message e).

(** [params.type || (params.command ? "stdio" : "http")] *)
Definition transportType (params : ConnectParams) : string :=
  match nonEmpty (p_type params) with
  | Some t => t
  | None =>
      match nonEmpty (p_command params) with
      | Some _ => "stdio"
      | None => "http"
      end
  end.

(** [Object.assign(target, source)] for string-valued [source]: every own
    key of [source] is written with an ordinary property assignment.  For
    the key [__proto__] that assignment reaches the accessor of
    [Object.prototype], which ignores a string, unless [target] has an own
    property of that name. *)
Definition Object_assign (target source : gmap string string) :
    gmap string string :=
  match target !! "__proto__" with
  | Some _ => source ∪ target
  | None => delete "__proto__" source ∪ target
  end.

Definition makeTransport (serverName : string) (params : ConnectParams) :
    M Transport :=
  if String.eqb (transportType params) "http" then
    match nonEmpty (p_url params) with
    | None => throw (requiresUrl serverName)
    | Some u =>
        match url_parse u with
        | None => throw (mkError TypeErrorE "Invalid URL")
        | Some href => mret (StreamableHTTPClientTransport href (p_headers params))
        end
    end
  else
    match nonEmpty (p_command params) with
    | None => throw (requiresCommand serverName)
    | Some command =>
        let env :=
          match p_env params with
          | Some source => Object_assign process_env source
          | None => process_env
          end in
        mret (StdioClientTransport command (default [] (p_args params)) env)
    end.

(** [this.clients.set(serverName, client)] *)
Definition clients_set (serverName : string) (client : Client) : M unit :=
  fun m => (Ok (), mkManager (Map_set serverName client (clients m)) (wire m)).

(** [this.clients.delete(serverName)] *)
Definition clients_delete (serverName : string) : M unit :=
  fun m => (Ok (), mkManager (Map_delete serverName (clients m)) (wire m)).

Definition clients_has (serverName : string) : M bool :=
  fun m => (Ok (Map_has serverName (clients m)), m).

Definition connectToServer (serverName : string) (params : ConnectParams) :
    M unit :=
  connected ← clients_has serverName;
  if connected : bool then throw (alreadyConnected serverName)
  else
    transport ← makeTransport serverName params;
    try_catch
      (client ← sdk_connect ("mcp-client-" ++ serverName) transport;
       clients_set serverName client)
      (fun error => throw (connectFailed serverName error)).

Definition getClient (serverName : string) : M Client :=
  fun m =>
    match Map_get serverName (clients m) with
    | None => throw (notConnected serverName) m
    | Some client => (Ok client, m)
    end.

Definition getConnectedServers (m : Manager) : list string :=
  Map_keys (clients m).

Definition listServers (m : Manager) : list string := getConnectedServers m.

Definition listTools (serverName : string) : M JsValue :=
  client ← getClient serverName;
  sdk_listTools client.

Definition callTool (serverName toolName : string) (args : JsValue) :
    M JsValue :=
  client ← getClient serverName;
  sdk_callTool client toolName args.

(** [!v || !Array.isArray(v)] *)
Definition noToolArray (v : JsValue) : bool :=
  negb (truthy v) || negb (isArray v).

Definition arrayItems (v : JsValue) : list JsValue :=
  match v with JArr items => items | _ => [] end.

(** [tools.find((t) => t.name === toolName)] *)
Fixpoint findByName (toolName : string) (tools : list JsValue) :
    Result JsValue :=
  match tools with
  | [] => Ok JUndefined
  | t :: rest =>
      name ← getProp t "name";
      match name with
      | JStr s => if String.eqb s toolName then Ok t else findByName toolName rest
      | _ => findByName toolName rest
      end
  end.

Definition getTool (serverName toolName : string) : M JsValue :=
  client ← getClient serverName;
  toolsResponse ← sdk_listTools client;
  tools ← lift (getProp toolsResponse "tools");
  if noToolArray tools then
    throw (newError ("No tools found on server '" ++ serverName ++ "'"))
  else
    tool ← lift (findByName toolName (arrayItems tools));
    if negb (truthy tool) then
      throw (newError ("Tool '" ++ toolName ++ "' not found on server '"
                       ++ serverName ++ "'"))
    else mret tool.

(** [{ name: tool.name, description: tool.description }] *)
Definition nameAndDescription (tool : JsValue) : Result JsValue :=
  name ← getProp tool "name";
  description ← getProp tool "description";
  Ok (JObj [("name", name); ("description", description)]).

Fixpoint mapR {A B} (f : A -> Result B) (l : list A) : Result (list B) :=
  match l with
  | [] => Ok []
  | x :: l' => y ← f x; ys ← mapR f l'; Ok (y :: ys)
  end.

Definition listToolsInServer (serverName : string) : M JsValue :=
  client ← getClient serverName;
  toolsResponse ← sdk_listTools client;
  tools ← lift (getProp toolsResponse "tools");
  if noToolArray tools then mret (JObj [("tools", JArr [])])
  else
    entries ← lift (mapR nameAndDescription (arrayItems tools));
    mret (JObj [("tools", JArr entries)]).

(** *** Regular expressions *)

(** [new RegExp(pattern, flags)] for the flag strings the manager builds:
    [g], [gi], the empty string and [i]. *)
Definition newRegExp (pattern : string) (global ignoreCase : bool) :
    Result RegExp :=
  match regexp_compile pattern ignoreCase with
  | inl diagnostic => Throw (mkError SyntaxErrorE diagnostic)
  | inr matcher => Ok (mkRegExp _ matcher global 0)
  end.

Definition setLastIndex (regex : RegExp) (i : nat) : RegExp :=
  mkRegExp _ (re_matcher regex) (re_global regex) i.

(** [regex.test(s)] (RegExpBuiltinExec): a global expression starts at its
    [lastIndex], stores the end of the match there, and resets it to zero
    when nothing matches; a non-global one starts at zero and leaves the
    property alone. *)
Definition RegExp_test (regex : RegExp) (s : string) : bool * RegExp :=
  if re_global regex then
    if (String.length s <? lastIndex regex)%nat then (false, setLastIndex regex 0)
    else
      match regexp_search (re_matcher regex) s (lastIndex regex) with
      | Some e => (true, setLastIndex regex e)
      | None => (false, setLastIndex regex 0)
      end
  else
    match regexp_search (re_matcher regex) s 0 with
    | Some _ => (true, regex)
    | None => (false, regex)
    end.

Inductive SearchIn := SearchName | SearchDescription | SearchBoth.

Definition isName (s : SearchIn) : bool :=
  match s with SearchName => true | _ => false end.

Definition isDescription (s : SearchIn) : bool :=
  match s with SearchDescription => true | _ => false end.

(** [enabled && tool.field && regex.test(tool.field)], as a truth value.
    The expression object is returned with whatever [test] did to it. *)
Definition fieldMatch (enabled : bool) (field : string) (regex : RegExp)
    (tool : JsValue) : Result bool * RegExp :=
  if enabled then
    match getProp tool field with
    | Throw e => (Throw e, regex)
    | Ok v =>
        if truthy v then
          let '(b, regex') := RegExp_test regex (toString v) in (Ok b, regex')
        else (Ok false, regex)
    end
  else (Ok false, regex).

(** The callback given to [filter] in both search methods. *)
Definition toolMatches (searchIn : SearchIn) (regex : RegExp)
    (tool : JsValue) : Result bool * RegExp :=
  match fieldMatch (negb (isDescription searchIn)) "name" regex tool with
  | (Throw e, regex1) => (Throw e, regex1)
  | (Ok nameMatch, regex1) =>
      match fieldMatch (negb (isName searchIn)) "description" regex1 tool with
      | (Throw e, regex2) => (Throw e, regex2)
      | (Ok descriptionMatch, regex2) =>
          (Ok (nameMatch || descriptionMatch), regex2)
      end
  end.

(** [tools.filter(callback)] with the one expression object shared by all
    calls of the callback. *)
Fixpoint filterTools (searchIn : SearchIn) (regex : RegExp)
    (tools : list JsValue) : Result (list JsValue) * RegExp :=
  match tools with
  | [] => (Ok [], regex)
  | tool :: rest =>
      match toolMatches searchIn regex tool with
      | (Throw e, regex') => (Throw e, regex')
      | (Ok keep, regex') =>
          match filterTools searchIn regex' rest with
          | (Throw e, regex'') => (Throw e, regex'')
          | (Ok kept, regex'') =>
              (Ok (if keep : bool then tool :: kept else kept), regex'')
          end
      end
  end.

Definition findToolsInServer (serverName pattern : string)
    (searchIn : SearchIn) (caseSensitive : bool) : M (list JsValue) :=
  client ← getClient serverName;
  toolsResponse ← sdk_listTools client;
  tools ← lift (getProp toolsResponse "tools");
  if noToolArray tools then mret []
  else
    (* flags = caseSensitive ? "g" : "gi" *)
    regex ← lift (newRegExp pattern true (negb caseSensitive));
    matchedTools ← lift (fst (filterTools searchIn regex (arrayItems tools)));
    lift (mapR nameAndDescription matchedTools).

(** *** Search across all servers *)

Record FindOptions := mkFindOptions {
  opt_searchIn : option SearchIn;
  opt_caseSensitive : option bool;
}.

Definition noOptions : FindOptions := mkFindOptions None None.

Definition invalidPattern (e : JsError) : JsError :=
  newError ("Invalid regex pattern: " ++ message e).

(** [[{ error: `Failed to search tools: ...` }]] *)
Definition errorEntry (e : JsError) : list JsValue :=
  [JObj [("error", JStr ("Failed to search tools: " ++ message e))]].

(** The statements inside [try] for one server: the matches to store, or
    nothing when the response carries no tool array. *)
Definition searchServer (searchIn : SearchIn) (regex : RegExp)
    (serverName : string) (m : Manager) :
    Result (option (list JsValue)) * RegExp * Manager :=
  match listTools serverName m with
  | (Throw e, m') => (Throw e, regex, m')
  | (Ok toolsResponse, m') =>
      match getProp toolsResponse "tools" with
      | Throw e => (Throw e, regex, m')
      | Ok tools =>
          if truthy tools && isArray tools then
            match filterTools searchIn regex (arrayItems tools) with
            | (Throw e, regex') => (Throw e, regex', m')
            | (Ok matched, regex') =>
                (matchedTools ← mapR nameAndDescription matched;
                 Ok (Some matchedTools), regex', m')
            end
          else (Ok None, regex, m')
      end
  end.

(** [results[serverName] = value] on the object created by [{}], with an
    array as value.  The result object is read through its own properties,
    which is what [Object.keys], [Object.entries] and [JSON.stringify] see.
    Under the key [__proto__] the assignment reaches the accessor of
    [Object.prototype]: it replaces the prototype of the object and creates
    no own property. *)
Definition Record_set (serverName : string) (value : list JsValue)
    (results : gmap string (list JsValue)) : gmap string (list JsValue) :=
  if String.eqb serverName "__proto__" then results
  else <[serverName := value]> results.

(** One turn of [for (const serverName of servers)], with its [catch]. *)
Definition searchStep (searchIn : SearchIn) (serverName : string)
    (results : gmap string (list JsValue)) (regex : RegExp) (m : Manager) :
    gmap string (list JsValue) * RegExp * Manager :=
  match searchServer searchIn regex serverName m with
  | (Ok (Some matchedTools), regex', m') =>
      (if (0 <? length matchedTools)%nat
       then Record_set serverName matchedTools results else results,
       regex', m')
  | (Ok None, regex', m') => (results, regex', m')
  | (Throw error, regex', m') =>
      (Record_set serverName (errorEntry error) results, regex', m')
  end.

Fixpoint searchLoop (searchIn : SearchIn) (servers : list string)
    (results : gmap string (list JsValue)) (regex : RegExp) (m : Manager) :
    gmap string (list JsValue) * RegExp * Manager :=
  match servers with
  | [] => (results, regex, m)
  | serverName :: rest =>
      let '(results', regex', m') :=
        searchStep searchIn serverName results regex m in
      searchLoop searchIn rest results' regex' m'
  end.

Definition findTools (pattern : string) (options : FindOptions) :
    M (gmap string (list JsValue)) :=
  fun m =>
    let searchIn := default SearchBoth (opt_searchIn options) in
    let caseSensitive := default false (opt_caseSensitive options) in
    let servers := getConnectedServers m in
    if bool_decide (length servers = 0) then (Ok ∅, m)
    else
      match newRegExp pattern false (negb caseSensitive) with
      | Throw error => (Throw (invalidPattern error), m)
      | Ok regex =>
          let '(results, _, m') := searchLoop searchIn servers ∅ regex m in
          (Ok results, m')
      end.

(** *** Disconnecting *)

(** The lookup and its error are those of [getClient], written out in the
    source. *)
Definition disconnectServer (serverName : string) : M unit :=
  client ← getClient serverName;
  try_catch
    (sdk_close client;; clients_delete serverName)
    (fun error => throw (disconnectFailed serverName error)).

Fixpoint forEach {A} (f : A -> M unit) (l : list A) : M unit :=
  match l with
  | [] => mret ()
  | x :: l' => f x;; forEach f l'
  end.

Definition disconnectAll : M unit :=
  fun m => forEach disconnectServer (getConnectedServers m) m.

End Methods.

(** ** Configuration file *)

(** Modelled from the spec: the declaration of [McpConfig] lives in
    [./types.js], which is not among the sources.  Section 6 of the
    specification gives the shape: an object whose [mcpServers] property maps
    server names to connection parameters.  The entries are kept in the order
    [Object.entries] lists them; the property may be absent. *)
Record McpConfig := mkConfig {
  mcpServers : option (list (string * ConnectParams));
}.

(** What the process and the file system contribute to finding and reading
    the configuration file. *)
Class Host := {
  (** [process.argv] *)
  argv : list string;
  (** [process.cwd()] *)
  cwd : string;
  (** [path.join] *)
  path_join : string -> string -> string;
  (** [fs.existsSync] *)
  existsSync : string -> bool;
  (** [fs.readFileSync(path, "utf-8")] *)
  readFileSync : string -> Result string;
  (** [JSON.parse(content) as McpConfig] *)
  JSON_parse : string -> Result McpConfig;
}.

(** [l.findIndex(p)], with [None] for -1. *)
Fixpoint findIndex {A} (p : A -> bool) (l : list A) : option nat :=
  match l with
  | [] => None
  | x :: l' => if p x then Some 0 else S <$> findIndex p l'
  end.

(** The first element that satisfies [p]: the [for] loop with [return]. *)
Fixpoint firstThat {A} (p : A -> bool) (l : list A) : option A :=
  match l with
  | [] => None
  | x :: l' => if p x then Some x else firstThat p l'
  end.

Section Config.
Context `{RT : Runtime} `{HT : Host}.

Definition defaultPaths : list string :=
  ["./mcp-config.json"; path_join cwd "mcp-config.json"].

Definition findConfigPath : option string :=
  match nonEmpty (process_env !! "MCP_CONFIG_PATH") with
  | Some p => Some p
  | None =>
      match findIndex (fun arg => String.eqb arg "--config-path") argv with
      | Some configArgIndex =>
          if (configArgIndex <? length argv - 1)%nat
          then argv !! S configArgIndex
          else firstThat existsSync defaultPaths
      | None => firstThat existsSync defaultPaths
      end
  end.

Definition loadFailed (configPath : string) (e : JsError) : JsError :=
  newError ("Failed to load configuration file '" ++ configPath ++ "': "
            ++ message e).

Definition loadConfigFile (configPath : string) : Result McpConfig :=
  match configContent ← readFileSync configPath; JSON_parse configContent with
  | Ok config => Ok config
  | Throw error => Throw (loadFailed configPath error)
  end.

(** [options?.configPath || findConfigPath()], the value the constructor
    assigns to [this.configPath]. *)
Definition initialConfigPath (optionsConfigPath : option string) :
    option string :=
  match nonEmpty optionsConfigPath with
  | Some p => Some p
  | None => findConfigPath
  end.

(** [a || b] on two optional strings, read through [!path]: the first one
    that is present and not empty. *)
Definition orElse (a b : option string) : option string :=
  match nonEmpty a with
  | Some p => Some p
  | None => nonEmpty b
  end.

Definition pathNotSpecified : JsError :=
  newError "Configuration file path not specified.".

(** The body of the loop over [Object.entries(config.mcpServers)]. *)
Definition loadEntry (entry : string * ConnectParams) : M unit :=
  let '(serverName, serverConfig) := entry in
  connected ← clients_has serverName;
  if connected : bool then mret ()
  else
    try_catch (connectToServer serverName serverConfig)
              (fun error => mret ()).

(** [loadFromConfig(configPath)]; [thisConfigPath] is the field
    [this.configPath], which only the constructor assigns. *)
Definition loadFromConfig (thisConfigPath configPath : option string) :
    M unit :=
  match orElse configPath thisConfigPath with
  | None => throw pathNotSpecified
  | Some path =>
      config ← lift (loadConfigFile path);
      match mcpServers config with
      | None | Some [] => mret ()
      | Some serverEntries => forEach loadEntry serverEntries
      end
  end.

End Config.

(** ** Reading the search methods

    What the [filter] callback and the projection compute for a tool that is
    neither [undefined] nor [null], with an expression whose [lastIndex]
    plays no part: a field counts when it is truthy and the pattern matches
    somewhere in it. *)

Section Reading.
Context `{RT : Runtime}.

Definition fieldHits (matcher : Matcher) (v : JsValue) : bool :=
  truthy v &&
  match regexp_search matcher (toString v) 0 with
  | Some _ => true
  | None => false
  end.

Definition matchesTool (matcher : Matcher) (searchIn : SearchIn)
    (tool : JsValue) : bool :=
  negb (isDescription searchIn) && fieldHits matcher (prop tool "name")
  || negb (isName searchIn) && fieldHits matcher (prop tool "description").

(** [t.name === toolName] *)
Definition named (toolName : string) (t : JsValue) : bool :=
  match prop t "name" with
  | JStr s => String.eqb s toolName
  | _ => false
  end.

(** The entry both search methods and [listToolsInServer] build for a tool. *)
Definition entryOf (tool : JsValue) : JsValue :=
  JObj [("name", prop tool "name"); ("description", prop tool "description")].

(** What one turn of the loop of [findTools] leaves under the server's
    name. *)
Definition entryFor (r : Result (option (list JsValue))) :
    option (list JsValue) :=
  match r with
  | Ok (Some matchedTools) =>
      if (0 <? length matchedTools)%nat then Some matchedTools else None
  | Ok None => None
  | Throw error => Some (errorEntry error)
  end.

(** What the assignment under the server's name keeps of it: nothing for
    the name [__proto__]. *)
Definition stored (serverName : string) (entry : option (list JsValue)) :
    option (list JsValue) :=
  if String.eqb serverName "__proto__" then None else entry.

(** No entry of a result of [findTools] has an input schema. *)
Definition schemaFree (results : gmap string (list JsValue)) : Prop :=
  forall n entries, results !! n = Some entries ->
    Forall (fun e => hasField "inputSchema" e = false) entries.

End Reading.

(** ** Reading the lifecycle methods *)

Section ReadingLifecycle.
Context `{RT : Runtime}.

(** The transport [connectToServer] builds, or the validation error; the
    manager state plays no part in it. *)
Definition transportOf (serverName : string) (params : ConnectParams) :
    Result Transport :=
  (makeTransport serverName params (mkManager [] [])).1.

(** The name under which [connectToServer] creates its client. *)
Definition clientName (serverName : string) : string :=
  "mcp-client-" ++ serverName.

(** The session a connection attempt under [serverName] would register. *)
Definition dial (serverName : string) (params : ConnectParams) :
    option Client :=
  match transportOf serverName params with
  | Ok transport =>
      match client_connect (clientName serverName) transport with
      | Ok client => Some client
      | Throw _ => None
      end
  | Throw _ => None
  end.

(** The session that loading [entries] registers under a name that was not
    connected: the one of the first entry of that name whose connection
    succeeds. *)
Fixpoint firstDial (serverName : string)
    (entries : list (string * ConnectParams)) : option Client :=
  match entries with
  | [] => None
  | (n, params) :: rest =>
      if String.eqb n serverName then
        match dial n params with
        | Some client => Some client
        | None => firstDial serverName rest
        end
      else firstDial serverName rest
  end.

(** A search that finds a match from some index finds one from the start of
    the string (the later match is still there). *)
Definition searchesForward (matcher : Matcher) : Prop :=
  forall s i e, regexp_search matcher s i = Some e ->
    is_Some (regexp_search matcher s 0).

End ReadingLifecycle.

(** ** A regular-expression engine to run the methods on

    A backtracking matcher for a fragment of the ECMAScript pattern syntax:
    characters, [.], [^], [$], groups, [|] and the greedy quantifiers
    [*], [+], [?], with the priorities of the ECMAScript matcher (left
    alternative first, longest repetition first, no empty iteration).
    Classes, braces, lazy quantifiers and letter escapes are outside the
    fragment and are refused.  It is used to evaluate the methods on
    concrete servers; no general theorem depends on it. *)

Module Engine.

Inductive re :=
| Empty
| Char (c : ascii)
| AnyChar
| Bol
| Eol
| Seq (a b : re)
| Alt (a b : re)
| Star (a : re).

Definition isAssertion (r : re) : bool :=
  match r with Bol | Eol => true | _ => false end.

Definition isSyntaxChar (c : ascii) : bool :=
  bool_decide (c ∈ String.list_ascii_of_string "\^$.*+?()[]{}|/").

Definition Parsed : Type := string + re * list ascii.

Fixpoint parseDisjunction (fuel : nat) (s : list ascii) : Parsed :=
  match fuel with
  | O => inl "Regular expression too large"
  | S fuel' =>
      match parseAlternative fuel' s with
      | inl e => inl e
      | inr (a, "|" :: rest)%char =>
          match parseDisjunction fuel' rest with
          | inl e => inl e
          | inr (b, rest') => inr (Alt a b, rest')
          end
      | inr (a, rest) => inr (a, rest)
      end
  end
with parseAlternative (fuel : nat) (s : list ascii) : Parsed :=
  match fuel with
  | O => inl "Regular expression too large"
  | S fuel' =>
      match s with
      | [] => inr (Empty, s)
      | ("|" :: _)%char | (")" :: _)%char => inr (Empty, s)
      | _ =>
          match parseTerm fuel' s with
          | inl e => inl e
          | inr (t, rest) =>
              match parseAlternative fuel' rest with
              | inl e => inl e
              | inr (a, rest') => inr (Seq t a, rest')
              end
          end
      end
  end
with parseTerm (fuel : nat) (s : list ascii) : Parsed :=
  match fuel with
  | O => inl "Regular expression too large"
  | S fuel' =>
      match parseAtom fuel' s with
      | inl e => inl e
      | inr (a, rest) =>
          if isAssertion a then inr (a, rest)
          else
            match rest with
            | ("*" :: rest')%char => inr (Star a, rest')
            | ("+" :: rest')%char => inr (Seq a (Star a), rest')
            | ("?" :: rest')%char => inr (Alt a Empty, rest')
            | _ => inr (a, rest)
            end
      end
  end
with parseAtom (fuel : nat) (s : list ascii) : Parsed :=
  match fuel with
  | O => inl "Regular expression too large"
  | S fuel' =>
      match s with
      | [] => inl "Unexpected end of pattern"
      | ("(" :: rest)%char =>
          match parseDisjunction fuel' rest with
          | inl e => inl e
          | inr (d, (")" :: rest')%char) => inr (d, rest')
          | inr _ => inl "Unterminated group"
          end
      | ("." :: rest)%char => inr (AnyChar, rest)
      | ("^" :: rest)%char => inr (Bol, rest)
      | ("$" :: rest)%char => inr (Eol, rest)
      | ("\" :: c :: rest)%char =>
          if isSyntaxChar c then inr (Char c, rest)
          else inl "Escape outside the fragment"
      | ("\" :: [])%char => inl "\ at end of pattern"
      | ("*" :: _)%char | ("+" :: _)%char | ("?" :: _)%char =>
          inl "Nothing to repeat"
      | ("[" :: _)%char | ("{" :: _)%char => inl "Syntax outside the fragment"
      | c :: rest => inr (Char c, rest)
      end
  end.

Definition parse (pattern : string) : string + re :=
  let s := String.list_ascii_of_string pattern in
  match parseDisjunction (4 * length s + 4) s with
  | inl e => inl e
  | inr (r, []) => inr r
  | inr (_, _) => inl "Unmatched ')'"
  end.

Definition upper (c : ascii) : ascii :=
  let n := nat_of_ascii c in
  if (97 <=? n)%nat && (n <=? 122)%nat then ascii_of_nat (n - 32) else c.

Definition sameChar (ignoreCase : bool) (c d : ascii) : bool :=
  if ignoreCase then Ascii.eqb (upper c) (upper d) else Ascii.eqb c d.

Definition isLineTerminator (c : ascii) : bool :=
  let n := nat_of_ascii c in (n =? 10)%nat || (n =? 13)%nat.

(** [rmatch ic r s k i]: match [r] in [s] at index [i], then continue with
    [k] at the index reached; the first success in priority order wins. *)
Fixpoint rmatch (ic : bool) (r : re) (s : string) (k : nat -> option nat)
    (i : nat) : option nat :=
  match r with
  | Empty => k i
  | Char c =>
      match String.get i s with
      | Some d => if sameChar ic c d then k (S i) else None
      | None => None
      end
  | AnyChar =>
      match String.get i s with
      | Some d => if isLineTerminator d then None else k (S i)
      | None => None
      end
  | Bol => if (i =? 0)%nat then k i else None
  | Eol => if (i =? String.length s)%nat then k i else None
  | Seq a b => rmatch ic a s (rmatch ic b s k) i
  | Alt a b =>
      match rmatch ic a s k i with
      | Some e => Some e
      | None => rmatch ic b s k i
      end
  | Star a =>
      (fix loop (fuel : nat) (i : nat) : option nat :=
         match fuel with
         | O => k i
         | S fuel' =>
             match rmatch ic a s
                     (fun j => if (i <? j)%nat then loop fuel' j else None) i
             with
             | Some e => Some e
             | None => k i
             end
         end) (S (String.length s - i)) i
  end.

Fixpoint searchFrom (ic : bool) (r : re) (s : string) (tries : nat)
    (i : nat) : option nat :=
  match rmatch ic r s Some i with
  | Some e => Some e
  | None =>
      match tries with
      | O => None
      | S tries' => searchFrom ic r s tries' (S i)
      end
  end.

Definition search (m : bool * re) (s : string) (start : nat) : option nat :=
  if (String.length s <? start)%nat then None
  else searchFrom (fst m) (snd m) s (String.length s - start) start.

Definition compile (pattern : string) (ignoreCase : bool) :
    string + bool * re :=
  match parse pattern with
  | inl e => inl ("Invalid regular expression: /" ++ pattern ++ "/: " ++ e)
  | inr r => inr (ignoreCase, r)
  end.

End Engine.

(** ** A concrete runtime and some upstream servers *)

Module Sample.

Definition tool (name description : string) : JsValue :=
  JObj [("name", JStr name);
        ("description", JStr description);
        ("inputSchema", JObj [("type", JStr "object")])].

Definition toolsResponse (tools : list JsValue) : JsValue :=
  JObj [("tools", JArr tools)].

Definition noCalls (toolName : string) (args : JsValue) : Result JsValue :=
  Throw (newError ("Unknown tool: " ++ toolName)).

Definition readFile : JsValue := tool "ReadFile" "Read the contents of a file".
Definition file : JsValue := tool "file" "Describe a path".

(** An upstream with two file tools. *)
Definition filesystem : Client :=
  mkClient "mcp-client-filesystem" (Ok (toolsResponse [readFile; file]))
    noCalls (Ok ()).

(** An upstream whose requests fail and which cannot be closed. *)
Definition broken : Client :=
  mkClient "mcp-client-broken"
    (Throw (newError "Connection closed")) noCalls
    (Throw (newError "Transport is not writable")).

(** An upstream that answers without a tool collection. *)
Definition malformed : Client :=
  mkClient "mcp-client-malformed" (Ok (JObj [])) noCalls (Ok ()).

(** An upstream with nothing to offer. *)
Definition idle : Client :=
  mkClient "mcp-client-idle" (Ok (toolsResponse [])) noCalls (Ok ()).

Definition isPrefix (p s : string) : bool :=
  String.eqb (String.substring 0 (String.length p) s) p.

(** The handshake succeeds for the command [npx] and for any URL. *)
#[global] Instance runtime : Runtime := {
  Matcher := bool * Engine.re;
  regexp_compile := Engine.compile;
  regexp_search := Engine.search;
  url_parse := fun s =>
    if isPrefix "http://" s || isPrefix "https://" s then Some s else None;
  process_env := {[ "FOO" := "base" ]};
  client_connect := fun name t =>
    match t with
    | StdioClientTransport "npx" _ _ =>
        Ok (mkClient name (client_listTools filesystem) noCalls (Ok ()))
    | StdioClientTransport command _ _ =>
        Throw (newError ("spawn " ++ command ++ " ENOENT"))
    | StreamableHTTPClientTransport _ _ =>
        Ok (mkClient name (client_listTools idle) noCalls (Ok ()))
    end;
}.

Definition stdio (command : string) : ConnectParams :=
  mkParams None (Some command) None None None None.

Definition noParams : ConnectParams :=
  mkParams None None None None None None.

Definition fresh : Manager := mkManager [] [].

Definition hub : Manager :=
  mkManager [("fs", filesystem); ("bad", broken); ("idle", idle);
             ("odd", malformed)] [].

(** The pattern that matches the characters of [s] one after the other. *)
Fixpoint literal (s : string) : Engine.re :=
  match s with
  | EmptyString => Engine.Empty
  | String c s' => Engine.Seq (Engine.Char c) (literal s')
  end.

(** The engine's diagnostic for the pattern made of an opening bracket. *)
Definition unterminated : string :=
  "Invalid regular expression: /(/: Unterminated group".

Definition searchNames : FindOptions := mkFindOptions (Some SearchName) None.

(** The result stored under a server name, or nothing when the call threw. *)
Definition found (r : Result (gmap string (list JsValue)) * Manager)
    (serverName : string) : option (list JsValue) :=
  match r.1 with
  | Ok results => results !! serverName
  | Throw _ => None
  end.

End Sample.

(** ** A host, a configuration file and a few more servers *)

Module Fixtures.
Import Sample.

Definition http (url : string) : ConnectParams :=
  mkParams None None None None (Some url) None.

(** Parameters with an explicit kind and nothing else. *)
Definition kindOnly (kind : string) : ConnectParams :=
  mkParams (Some kind) None None None None None.

Definition withEnv (command : string) (env : gmap string string) :
    ConnectParams :=
  mkParams None (Some command) None (Some env) None None.

(** An upstream whose tool sequence has a hole. *)
Definition leaky : Client :=
  mkClient "mcp-client-leaky" (Ok (toolsResponse [readFile; JNull]))
    noCalls (Ok ()).

(** An upstream that answers [null]. *)
Definition silent : Client :=
  mkClient "mcp-client-silent" (Ok JNull) noCalls (Ok ()).

Definition depot : Manager :=
  mkManager [("fs", filesystem); ("leaky", leaky); ("odd", malformed);
             ("silent", silent)] [].

(** Two servers that cannot list their tools, one of them registered under
    the name [__proto__]. *)
Definition polluted : Manager :=
  mkManager [("fs", filesystem); ("bad", broken); ("__proto__", broken);
             ("idle", idle)] [].

Definition calm : Manager :=
  mkManager [("fs", filesystem); ("idle", idle)] [].

Definition configText : string :=
  "{ mcpServers: fs, ghost, web, nowhere }".

Definition config : McpConfig :=
  mkConfig (Some [("fs", stdio "npx"); ("ghost", stdio "nope");
                  ("web", http "https://example.org/mcp");
                  ("nowhere", http "not a url")]).

Definition enoent (path : string) : JsError :=
  newError ("ENOENT: no such file or directory, open '" ++ path ++ "'").

Definition files (path : string) : Result string :=
  if String.eqb path "/etc/hub.json" then Ok configText
  else if String.eqb path "/etc/broken.json" then Ok "{"
  else Throw (enoent path).

Definition parseConfig (content : string) : Result McpConfig :=
  if String.eqb content configText then Ok config
  else Throw (mkError SyntaxErrorE "Unexpected end of JSON input").

Definition hostWith (args : list string) (present : string -> bool) : Host :=
  {| argv := args;
     cwd := "/srv";
     path_join := fun a b => a ++ "/" ++ b;
     existsSync := present;
     readFileSync := files;
     JSON_parse := parseConfig |}.

(** Started with [--config-path /etc/hub.json]; a default file exists under
    the working directory. *)
Definition host : Host :=
  hostWith ["node"; "hub.js"; "--config-path"; "/etc/hub.json"]
           (String.eqb "/srv/mcp-config.json").

(** Started with a [--config-path] that has no value after it. *)
Definition dangling : Host :=
  hostWith ["node"; "hub.js"; "--config-path"]
           (String.eqb "/srv/mcp-config.json").

(** The sample runtime with [MCP_CONFIG_PATH] set. *)
Definition runtimeWithEnv : Runtime :=
  {| Matcher := bool * Engine.re;
     regexp_compile := Engine.compile;
     regexp_search := Engine.search;
     url_parse := @url_parse runtime;
     process_env := {[ "MCP_CONFIG_PATH" := "/opt/hub.json" ]};
     client_connect := @client_connect runtime |}.

End Fixtures.

(** * Properties *)

(** ** The [Map] operations *)

Section MapFacts.
Context {A : Type}.
Implicit Types (k : string) (l : list (string * A)).

Lemma Map_has_get k l : Map_has k l = true <-> is_Some (Map_get k l).
Proof.
  unfold Map_has, Map_get. destruct (assoc k l); split; intros Hk;
    eauto; try discriminate. by destruct Hk.
Qed.

Lemma Map_get_head k v l : Map_get k ((k, v) :: l) = Some v.
Proof. unfold Map_get; simpl. by rewrite String.eqb_refl. Qed.

Lemma Map_has_false_count k l :
  Map_has k l = false -> count_occ String.string_dec (Map_keys l) k = 0.
Proof.
  unfold Map_has. induction l as [|[k' v] l IH]; simpl; [done|].
  destruct (String.eqb_spec k' k) as [->|Hne]; [discriminate|].
  intros Hk. destruct (String.string_dec k' k); [done|]. by apply IH.
Qed.

Lemma Map_set_fresh k v l :
  Map_has k l = false -> Map_set k v l = (l ++ [(k, v)])%list.
Proof.
  unfold Map_has. induction l as [|[k' v'] l IH]; simpl; [done|].
  destruct (String.eqb_spec k' k) as [->|Hne]; [discriminate|].
  intros Hk. by rewrite IH.
Qed.

Lemma Map_get_set k v l : Map_get k (Map_set k v l) = Some v.
Proof.
  unfold Map_get. induction l as [|[k' v'] l IH]; simpl.
  - by rewrite String.eqb_refl.
  - destruct (String.eqb_spec k' k) as [->|Hne]; simpl.
    + by rewrite String.eqb_refl.
    + by destruct (String.eqb_spec k' k).
Qed.

Lemma Map_get_delete k l : Map_wf l -> Map_get k (Map_delete k l) = None.
Proof.
  unfold Map_wf, Map_get. induction l as [|[k' v'] l IH]; simpl; [done|].
  rewrite NoDup_cons. intros [Hk' Hl].
  destruct (String.eqb_spec k' k) as [->|Hne]; simpl.
  - clear IH Hl. induction l as [|[k2 v2] l IH]; simpl; [done|].
    simpl in Hk'. rewrite not_elem_of_cons in Hk'. destruct Hk' as [Hne Hk'].
    destruct (String.eqb_spec k2 k); [congruence|]. by apply IH.
  - destruct (String.eqb_spec k' k); [done|]. by apply IH.
Qed.

Lemma Map_get_delete_ne k k' l :
  k ≠ k' -> Map_get k' (Map_delete k l) = Map_get k' l.
Proof.
  unfold Map_get. intros Hne. induction l as [|[k2 v2] l IH]; simpl; [done|].
  destruct (String.eqb_spec k2 k) as [->|Hne2]; simpl.
  - by destruct (String.eqb_spec k k').
  - by rewrite IH.
Qed.

End MapFacts.

(** ** Connecting *)

Section Lifecycle.
Context `{RT : Runtime}.

(** Unfold the monad of the methods. *)
Ltac run :=
  unfold mbind, mret, M_bind, M_ret, throw, lift, try_catch,
    clients_has, clients_set, clients_delete, sdk_connect, sdk_close,
    sdk_listTools, getClient, send in *; simpl in *.

Lemma connect_when_connected n params m :
  Map_has n (clients m) = true ->
  connectToServer n params m = (Throw (alreadyConnected n), m).
Proof. intros Hn. unfold connectToServer. run. by rewrite Hn. Qed.

Lemma connect_success n params m m' :
  connectToServer n params m = (Ok (), m') ->
  Map_has n (clients m) = false /\
  exists t c, client_connect ("mcp-client-" ++ n) t = Ok c /\
    m' = mkManager (Map_set n c (clients m))
                   (wire m ++ [ReqConnect ("mcp-client-" ++ n) t]).
Proof.
  unfold connectToServer. run.
  destruct (Map_has n (clients m)) eqn:Hn; [discriminate|].
  destruct (makeTransport n params m) as [[t|e] m1] eqn:Ht; [|discriminate].
  assert (m1 = m) as ->.
  { unfold makeTransport in Ht. run.
    repeat (case_match; simplify_eq); done. }
  destruct (client_connect _ t) as [c|e] eqn:Hc; [|discriminate].
  intros [= <-]. split; [done|]. by exists t, c.
Qed.

(** C1: after a successful [connectToServer n params] the name [n] occurs
    exactly once among the connected server names, and any further
    [connectToServer n ...] fails with the already-connected error and
    leaves the whole manager state, hence the session stored under [n] and
    the registry, as it was. *)
Theorem connect_registers_once n params m m' :
  connectToServer n params m = (Ok (), m') ->
  count_occ String.string_dec (getConnectedServers m') n = 1 /\
  is_Some (Map_get n (clients m')) /\
  forall params2,
    connectToServer n params2 m' = (Throw (alreadyConnected n), m').
Proof.
  intros (Hfresh & t & c & Hc & ->)%connect_success.
  assert (Map_get n (Map_set n c (clients m)) = Some c) as Hget
    by apply Map_get_set.
  split; [|split].
  - unfold getConnectedServers; simpl. rewrite Map_set_fresh by done.
    unfold Map_keys. rewrite map_app, count_occ_app; simpl.
    fold (Map_keys (clients m)). rewrite Map_has_false_count by done.
    by destruct (String.string_dec n n).
  - simpl. by rewrite Hget.
  - intros params2. apply connect_when_connected; simpl.
    apply Map_has_get. by rewrite Hget.
Qed.

(** C10: for a name that is already connected, [connectToServer] throws the
    already-connected error whatever the parameters are, so also when they
    have neither a URL nor a command; the error is not one of the validation
    errors, no request has been sent and the registry is unchanged. *)
Theorem connect_duplicate_before_validation n params m :
  is_Some (Map_get n (clients m)) ->
  connectToServer n params m = (Throw (alreadyConnected n), m) /\
  alreadyConnected n <> requiresUrl n /\
  alreadyConnected n <> requiresCommand n.
Proof.
  intros Hn%Map_has_get. split; [by apply connect_when_connected|].
  split; discriminate.
Qed.

(** ** Disconnecting *)

Lemma disconnect_closed n c m :
  Map_get n (clients m) = Some c ->
  client_close c = Ok () ->
  disconnectServer n m =
    (Ok (), mkManager (Map_delete n (clients m)) (wire m ++ [ReqClose c])).
Proof. intros Hn Hc. unfold disconnectServer. run. by rewrite Hn, Hc. Qed.

Lemma disconnect_failed n c e m :
  Map_get n (clients m) = Some c ->
  client_close c = Throw e ->
  disconnectServer n m =
    (Throw (disconnectFailed n e),
     mkManager (clients m) (wire m ++ [ReqClose c])).
Proof. intros Hn Hc. unfold disconnectServer. run. by rewrite Hn, Hc. Qed.

(** C9: for a connected name, [disconnectServer] asks the client to close
    and deletes the entry only when that succeeded; when close throws, the
    disconnect error is thrown and the registry is the one from before, with
    the session still stored under the name.  The sessions under other
    names stay in either case. *)
Theorem disconnect_removes_only_after_close n c m :
  Map_wf (clients m) ->
  Map_get n (clients m) = Some c ->
  match client_close c with
  | Ok _ =>
      exists m', disconnectServer n m = (Ok (), m') /\
        clients m' = Map_delete n (clients m) /\
        Map_get n (clients m') = None /\
        (forall k, n <> k -> Map_get k (clients m') = Map_get k (clients m)) /\
        wire m' = (wire m ++ [ReqClose c])%list
  | Throw e =>
      exists m', disconnectServer n m = (Throw (disconnectFailed n e), m') /\
        clients m' = clients m /\
        Map_get n (clients m') = Some c /\
        wire m' = (wire m ++ [ReqClose c])%list
  end.
Proof.
  intros Hwf Hn. destruct (client_close c) as [[]|e] eqn:Hc.
  - eexists; split; [by apply disconnect_closed|]. simpl.
    rewrite Map_get_delete by done. repeat split.
    intros k Hk. by apply Map_get_delete_ne.
  - eexists; split; [by apply disconnect_failed|]. done.
Qed.

(** C8: [disconnectAll] walks the names connected at the time of the call in
    registry order.  When the sessions in front close and the next one does
    not, its disconnect error is what the caller gets, the failed session
    and all later ones are still registered, and no close request was sent
    for any later name. *)
Theorem disconnectAll_fail_fast before n c e after w :
  Forall (fun entry => client_close entry.2 = Ok ()) before ->
  client_close c = Throw e ->
  disconnectAll (mkManager (before ++ (n, c) :: after) w) =
    (Throw (disconnectFailed n e),
     mkManager ((n, c) :: after)
               (w ++ map (fun entry => ReqClose entry.2) before
                  ++ [ReqClose c])).
Proof.
  intros Hbefore Hc. unfold disconnectAll, getConnectedServers; simpl.
  revert w. induction Hbefore as [|[k v] before Hv _ IH]; intros w; simpl.
  - unfold mbind, M_bind.
    by rewrite (disconnect_failed n c e (mkManager ((n, c) :: after) w)
                  (Map_get_head _ _ _) Hc).
  - unfold mbind, M_bind. simpl in Hv.
    rewrite (disconnect_closed k v (mkManager ((k, v) :: _) w)
               (Map_get_head _ _ _) Hv).
    simpl. rewrite String.eqb_refl.
    fold (@mbind M _ unit unit). unfold mbind, M_bind in IH.
    rewrite IH. by rewrite <- !app_assoc.
Qed.

End Lifecycle.

(** ** Listing and looking up tools *)

Section Queries.
Context `{RT : Runtime}.

Ltac run :=
  unfold mbind, mret, M_bind, M_ret, Result_bind, throw, lift, try_catch,
    sdk_listTools, getClient, send in *; simpl in *.

Lemma getProp_prop v k : nullish v = false -> getProp v k = Ok (prop v k).
Proof. by destruct v. Qed.

Lemma nameAndDescription_entryOf tool :
  nullish tool = false -> nameAndDescription tool = Ok (entryOf tool).
Proof.
  intros Htool. unfold nameAndDescription, entryOf.
  by rewrite !getProp_prop.
Qed.

Lemma mapR_entryOf tools :
  Forall (fun t => nullish t = false) tools ->
  mapR nameAndDescription tools = Ok (entryOf <$> tools).
Proof.
  induction 1 as [|t tools Ht _ IH]; simpl; [done|].
  rewrite nameAndDescription_entryOf by done. unfold mbind, Result_bind.
  by rewrite IH.
Qed.

Lemma nameAndDescription_no_schema tool entry :
  nameAndDescription tool = Ok entry -> hasField "inputSchema" entry = false.
Proof.
  unfold nameAndDescription, mbind, Result_bind.
  destruct (getProp tool "name"); [|discriminate].
  destruct (getProp tool "description"); [|discriminate].
  by intros [= <-].
Qed.

Lemma mapR_no_schema tools entries :
  mapR nameAndDescription tools = Ok entries ->
  Forall (fun e => hasField "inputSchema" e = false) entries.
Proof.
  revert entries. induction tools as [|t tools IH]; simpl; intros entries.
  - by intros [= <-].
  - unfold mbind, Result_bind.
    destruct (nameAndDescription t) as [e|] eqn:He; [|discriminate].
    destruct (mapR nameAndDescription tools) as [es|]; [|discriminate].
    intros [= <-]. constructor; [by eapply nameAndDescription_no_schema|].
    by apply IH.
Qed.

Lemma entryOf_no_schema tools :
  Forall (fun e => hasField "inputSchema" e = false) (entryOf <$> tools).
Proof. apply Forall_fmap, Forall_true. done. Qed.

Lemma listTools_connected n c m :
  Map_get n (clients m) = Some c ->
  listTools n m = (client_listTools c, send (ReqListTools c) m).
Proof.
  intros Hn. unfold listTools. run. rewrite Hn.
  by destruct (client_listTools c).
Qed.

(** C4, as the code has it: for a connected server whose upstream reports a
    sequence of tools, [listToolsInServer] returns one entry per tool, in
    the upstream's order, holding the tool's name and description as
    reported and nothing else; the input schema is left out. *)
Theorem listToolsInServer_names_and_descriptions n c response items m :
  Map_get n (clients m) = Some c ->
  client_listTools c = Ok response ->
  getProp response "tools" = Ok (JArr items) ->
  Forall (fun t => nullish t = false) items ->
  listToolsInServer n m =
    (Ok (JObj [("tools", JArr (entryOf <$> items))]),
     send (ReqListTools c) m) /\
  Forall (fun e => hasField "inputSchema" e = false) (entryOf <$> items).
Proof.
  intros Hn Hc Htools Hitems. split; [|apply entryOf_no_schema].
  unfold listToolsInServer. run. rewrite Hn, Hc, Htools; simpl.
  by rewrite mapR_entryOf.
Qed.

(** C5, as the code has it: for a connected server [listTools] returns the
    response as it came, whatever its shape.  When the response is a value
    other than [null] and [undefined] whose tool collection is missing or
    not a sequence, [listToolsInServer] returns an empty tool list and does
    not throw; when the response itself is [null] or [undefined],
    [listToolsInServer] throws the TypeError of reading its [tools]
    property.  A server that reports zero tools gets the empty list. *)
Theorem listing_tolerates_malformed n c response m :
  Map_get n (clients m) = Some c ->
  client_listTools c = Ok response ->
  listTools n m = (Ok response, send (ReqListTools c) m) /\
  (nullish response = false ->
   noToolArray (prop response "tools") = true ->
   listToolsInServer n m =
     (Ok (JObj [("tools", JArr [])]), send (ReqListTools c) m)) /\
  (nullish response = true ->
   listToolsInServer n m =
     (Throw (mkError TypeErrorE
               ("Cannot read properties of " ++ describe response
                ++ " (reading 'tools')")),
      send (ReqListTools c) m)) /\
  (prop response "tools" = JArr [] ->
   listToolsInServer n m =
     (Ok (JObj [("tools", JArr [])]), send (ReqListTools c) m)).
Proof.
  intros Hn Hc. split; [by rewrite (listTools_connected n c), Hc|].
  unfold listToolsInServer. run. rewrite Hn, Hc. simpl. split; [|split].
  - intros Hobj Hbad. rewrite getProp_prop by done. simpl. by rewrite Hbad.
  - intros Hnull. by destruct response.
  - intros Hempty. destruct response; try discriminate. simpl in *.
    by rewrite Hempty.
Qed.

(** *** [getTool] *)

Lemma findByName_first toolName pre t post :
  Forall (fun x => nullish x = false) pre ->
  Forall (fun x => named toolName x = false) pre ->
  nullish t = false ->
  named toolName t = true ->
  findByName toolName (pre ++ t :: post) = Ok t.
Proof.
  unfold named. intros Hpre Hnames Ht Hname.
  induction Hpre as [|x pre Hx _ IH]; simpl.
  - rewrite getProp_prop by done. unfold mbind, Result_bind.
    destruct (prop t "name"); try discriminate. by rewrite Hname.
  - apply Forall_cons in Hnames as [Hxn Hnames].
    rewrite getProp_prop by done. unfold mbind, Result_bind.
    destruct (prop x "name"); auto. rewrite Hxn. auto.
Qed.

Lemma first_with_name toolName (items : list JsValue) tool :
  tool ∈ items -> named toolName tool = true ->
  exists pre t post, items = (pre ++ t :: post)%list /\
    named toolName t = true /\
    Forall (fun x => named toolName x = false) pre.
Proof.
  intros Hin Hname. induction items as [|x items IH]; [by inversion Hin|].
  destruct (named toolName x) eqn:Hx.
  - by exists [], x, items.
  - apply elem_of_cons in Hin as [->|Hin]; [congruence|].
    destruct (IH Hin) as (pre & t & post & -> & Ht & Hpre).
    exists (x :: pre), t, post. repeat split; [done|]. by constructor.
Qed.

(** *** The search loop of [findTools] *)

Lemma searchServer_no_schema searchIn regex n m matchedTools regex' m' :
  searchServer searchIn regex n m = (Ok (Some matchedTools), regex', m') ->
  Forall (fun e => hasField "inputSchema" e = false) matchedTools.
Proof.
  unfold searchServer.
  destruct (listTools n m) as [[response|] m1]; [|discriminate].
  destruct (getProp response "tools") as [tools|]; [|discriminate].
  destruct (truthy tools && isArray tools); [|discriminate].
  destruct (filterTools _ _ _) as [[matched|] ?]; [|discriminate].
  unfold mbind, Result_bind.
  destruct (mapR nameAndDescription matched) eqn:Hmap; [|discriminate].
  intros [= <- _ _]. by eapply mapR_no_schema.
Qed.

Lemma Record_set_no_schema n value results :
  schemaFree results ->
  Forall (fun e => hasField "inputSchema" e = false) value ->
  schemaFree (Record_set n value results).
Proof.
  intros Hres Hvalue. unfold Record_set.
  destruct (String.eqb n "__proto__"); [done|].
  intros k entries. rewrite lookup_insert. case_decide; [|by apply Hres].
  by intros [= <-].
Qed.

Lemma searchStep_no_schema searchIn n results regex m results' regex' m' :
  schemaFree results ->
  searchStep searchIn n results regex m = (results', regex', m') ->
  schemaFree results'.
Proof.
  intros Hres. unfold searchStep.
  destruct (searchServer searchIn regex n m) as [[[[mt|]|e] regex1] m1] eqn:Hs.
  - apply searchServer_no_schema in Hs.
    destruct (0 <? length mt)%nat; intros [= <- _ _]; [|done].
    by apply Record_set_no_schema.
  - by intros [= <- _ _].
  - intros [= <- _ _]. apply Record_set_no_schema; [done|].
    by repeat constructor.
Qed.

Lemma searchLoop_no_schema searchIn servers results regex m results' regex' m' :
  searchLoop searchIn servers results regex m = (results', regex', m') ->
  schemaFree results -> schemaFree results'.
Proof.
  revert results regex m.
  induction servers as [|n servers IH]; simpl; intros results regex m.
  - by intros [= <- _ _].
  - destruct (searchStep searchIn n results regex m) as [[r1 regex1] m1] eqn:Hs.
    intros Hloop Hres. eapply IH; [done|]. by eapply searchStep_no_schema.
Qed.

(** C7: the entries returned by [findToolsInServer] and all entries in the
    result of [findTools] have no [inputSchema] field, whereas [getTool]
    returns, unchanged, the first descriptor of the upstream's list whose
    name is exactly the requested one, so with the input schema the
    upstream reported for it. *)
Theorem search_drops_schema_getTool_keeps_it :
  (forall n pattern searchIn caseSensitive m entries m',
     findToolsInServer n pattern searchIn caseSensitive m = (Ok entries, m') ->
     Forall (fun e => hasField "inputSchema" e = false) entries) /\
  (forall pattern options m results m',
     findTools pattern options m = (Ok results, m') ->
     forall n entries, results !! n = Some entries ->
       Forall (fun e => hasField "inputSchema" e = false) entries) /\
  (forall n toolName m c response items tool,
     Map_get n (clients m) = Some c ->
     client_listTools c = Ok response ->
     getProp response "tools" = Ok (JArr items) ->
     Forall (fun t => nullish t = false) items ->
     tool ∈ items ->
     named toolName tool = true ->
     exists pre t post,
       items = (pre ++ t :: post)%list /\
       Forall (fun x => named toolName x = false) pre /\
       named toolName t = true /\
       getTool n toolName m = (Ok t, send (ReqListTools c) m) /\
       (Forall (fun x => hasField "inputSchema" x = true) items ->
        hasField "inputSchema" t = true)).
Proof.
  split; [|split].
  - intros n pattern searchIn caseSensitive m entries m'.
    unfold findToolsInServer. run.
    destruct (Map_get n (clients m)); [|discriminate].
    destruct (client_listTools c); [|discriminate].
    destruct (getProp a "tools") as [tools|]; [|discriminate].
    destruct (noToolArray tools); [by intros [= <- _]|].
    destruct (newRegExp pattern true (negb caseSensitive)); [|discriminate].
    destruct (filterTools _ _ _) as [[matched|] ?]; simpl; [|discriminate].
    destruct (mapR nameAndDescription matched) eqn:Hmap; [|discriminate].
    intros [= <- _]. by eapply mapR_no_schema.
  - intros pattern options m results m'. unfold findTools.
    case_bool_decide; [by intros [= <- _] n entries; rewrite lookup_empty|].
    destruct (newRegExp _ _ _) as [regex|]; [|discriminate].
    destruct (searchLoop _ _ _ _ _) as [[results' regex'] m''] eqn:Hloop.
    intros [= <- _] n entries Hn.
    eapply searchLoop_no_schema in Hloop; [by eapply Hloop|].
    by intros ? ?; rewrite lookup_empty.
  - intros n toolName m c response items tool Hn Hc Htools Hitems Hin Hname.
    destruct (first_with_name toolName items tool Hin Hname)
      as (pre & t & post & -> & Ht & Hpre).
    exists pre, t, post. repeat split; try done.
    + assert (nullish t = false) as Hobj.
      { eapply (proj1 (Forall_forall _ _) Hitems), elem_of_app. right.
        apply elem_of_cons. by left. }
      unfold getTool. run. rewrite Hn, Hc, Htools; simpl.
      rewrite findByName_first; try done.
      * by destruct t.
      * by apply Forall_app in Hitems as [? _].
    + intros Hall. eapply (proj1 (Forall_forall _ _) Hall), elem_of_app.
      right. apply elem_of_cons. by left.
Qed.

(** *** Expressions without the [g] flag *)

Lemma RegExp_test_plain regex s :
  re_global regex = false ->
  RegExp_test regex s =
    (match regexp_search (re_matcher regex) s 0 with
     | Some _ => true
     | None => false
     end, regex).
Proof.
  intros Hg. unfold RegExp_test. rewrite Hg.
  by destruct (regexp_search _ _ _).
Qed.

Lemma fieldMatch_plain enabled field regex tool :
  re_global regex = false ->
  fieldMatch enabled field regex tool =
    (if enabled then v ← getProp tool field;
                     Ok (fieldHits (re_matcher regex) v)
     else Ok false, regex).
Proof.
  intros Hg. unfold fieldMatch, fieldHits, mbind, Result_bind.
  destruct enabled; [|done]. destruct (getProp tool field) as [v|]; [|done].
  destruct (truthy v); [|done]. by rewrite RegExp_test_plain.
Qed.

Lemma toolMatches_plain_regex searchIn regex tool :
  re_global regex = false -> (toolMatches searchIn regex tool).2 = regex.
Proof.
  intros Hg. unfold toolMatches. rewrite !fieldMatch_plain by done.
  repeat (case_match; simplify_eq; simpl); done.
Qed.

Lemma toolMatches_plain searchIn regex tool :
  re_global regex = false -> nullish tool = false ->
  toolMatches searchIn regex tool =
    (Ok (matchesTool (re_matcher regex) searchIn tool), regex).
Proof.
  intros Hg Htool. unfold toolMatches, matchesTool.
  rewrite !fieldMatch_plain by done. rewrite !getProp_prop by done.
  unfold mbind, Result_bind. by destruct searchIn.
Qed.

Lemma filterTools_plain_regex searchIn regex tools :
  re_global regex = false -> (filterTools searchIn regex tools).2 = regex.
Proof.
  intros Hg. induction tools as [|t tools IH]; simpl; [done|].
  pose proof (toolMatches_plain_regex searchIn regex t Hg) as Ht.
  destruct (toolMatches searchIn regex t) as [[keep|e] regex1];
    simpl in Ht; subst regex1; [|done].
  by destruct (filterTools searchIn regex tools) as [[kept|e] regex2].
Qed.

Lemma filterTools_plain searchIn regex tools :
  re_global regex = false ->
  Forall (fun t => nullish t = false) tools ->
  filterTools searchIn regex tools =
    (Ok (List.filter (matchesTool (re_matcher regex) searchIn) tools), regex).
Proof.
  intros Hg. induction 1 as [|t tools Ht _ IH]; simpl; [done|].
  rewrite toolMatches_plain, IH by done.
  by destruct (matchesTool _ _ t).
Qed.

Lemma filter_not_nullish (f : JsValue -> bool) tools :
  Forall (fun t => nullish t = false) tools ->
  Forall (fun t => nullish t = false) (List.filter f tools).
Proof.
  induction 1 as [|t tools Ht _ IH]; simpl; [done|].
  destruct (f t); [by constructor|done].
Qed.

(** The outcome for one server depends on the registry only, and the
    registry is not touched. *)
Lemma searchServer_clients searchIn regex n m1 m2 :
  clients m1 = clients m2 ->
  (searchServer searchIn regex n m1).1 = (searchServer searchIn regex n m2).1.
Proof.
  intros Hm. unfold searchServer, listTools. run. rewrite Hm.
  destruct (Map_get n (clients m2)) as [c|]; [|done].
  destruct (client_listTools c) as [response|]; [|done].
  repeat (case_match; simplify_eq; simpl); done.
Qed.

Lemma searchServer_keeps_clients searchIn regex n m :
  clients (searchServer searchIn regex n m).2 = clients m.
Proof.
  unfold searchServer, listTools. run.
  destruct (Map_get n (clients m)) as [c|]; [|done].
  destruct (client_listTools c) as [response|]; [|done].
  repeat (case_match; simplify_eq; simpl); done.
Qed.

Lemma searchServer_plain_regex searchIn regex n m :
  re_global regex = false -> (searchServer searchIn regex n m).1.2 = regex.
Proof.
  intros Hg. unfold searchServer.
  destruct (listTools n m) as [[response|] m1]; [|done].
  destruct (getProp response "tools") as [tools|]; [|done].
  destruct (truthy tools && isArray tools); [|done].
  pose proof (filterTools_plain_regex searchIn regex (arrayItems tools) Hg).
  by destruct (filterTools _ _ _) as [[matched|] ?].
Qed.

Lemma searchStep_plain searchIn n results regex m :
  re_global regex = false ->
  exists m', clients m' = clients m /\
    searchStep searchIn n results regex m =
      (match stored n (entryFor (searchServer searchIn regex n m).1.1) with
       | Some entries => <[n := entries]> results
       | None => results
       end, regex, m').
Proof.
  intros Hg. unfold searchStep, stored, Record_set.
  pose proof (searchServer_plain_regex searchIn regex n m Hg) as Hre.
  pose proof (searchServer_keeps_clients searchIn regex n m) as Hcl.
  destruct (searchServer searchIn regex n m) as [[[[mt|]|e] regex1] m1];
    simpl in *; subst regex1; exists m1; split; try done.
  - by destruct (0 <? length mt)%nat, (String.eqb n "__proto__").
  - by destruct (String.eqb n "__proto__").
  - by destruct (String.eqb n "__proto__").
Qed.

Lemma searchLoop_plain searchIn servers results regex m :
  re_global regex = false ->
  exists results' m', clients m' = clients m /\
    searchLoop searchIn servers results regex m = (results', regex, m') /\
    forall n, results' !! n =
      if decide (n ∈ servers) then
        match stored n (entryFor (searchServer searchIn regex n m).1.1) with
        | Some entries => Some entries
        | None => results !! n
        end
      else results !! n.
Proof.
  intros Hg. revert results m.
  induction servers as [|k servers IH]; intros results m; simpl.
  - exists results, m. by repeat split.
  - destruct (searchStep_plain searchIn k results regex m Hg)
      as (m1 & Hm1 & ->).
    destruct (IH (match stored k (entryFor
                                    (searchServer searchIn regex k m).1.1)
                  with
                  | Some entries => <[k := entries]> results
                  | None => results
                  end) m1) as (results' & m' & Hm' & -> & Hlook).
    exists results', m'. split; [congruence|]. split; [done|].
    intros n. rewrite Hlook.
    rewrite (searchServer_clients searchIn regex n m1 m Hm1).
    destruct (decide (n = k)) as [->|Hne].
    + rewrite (decide_True (P := k ∈ k :: servers)) by apply list_elem_of_here.
      destruct (stored k (entryFor (searchServer searchIn regex k m).1.1))
        as [entries|]; [|by case_decide].
      rewrite lookup_insert_eq. by case_decide.
    + assert (forall X : gmap string (list JsValue),
                (match stored k (entryFor
                                   (searchServer searchIn regex k m).1.1)
                 with
                 | Some entries => <[k := entries]> X
                 | None => X
                 end) !! n = X !! n) as Hother.
      { intros X. destruct (stored k _); [|done].
        by rewrite lookup_insert_ne. }
      rewrite Hother.
      destruct (decide (n ∈ servers)) as [Hin|Hnin].
      * by rewrite decide_True by (by apply list_elem_of_further).
      * rewrite decide_False; [done|].
        by intros [?|?]%elem_of_cons.
Qed.

Lemma Map_get_keys {A} n (l : list (string * A)) v :
  Map_get n l = Some v -> n ∈ Map_keys l.
Proof.
  unfold Map_get, Map_keys. induction l as [|[k x] l IH]; simpl; [done|].
  destruct (String.eqb_spec k n) as [->|Hne]; intros Hn.
  - apply list_elem_of_here.
  - apply list_elem_of_further. by apply IH.
Qed.

Lemma Map_get_not_keys {A} n (l : list (string * A)) :
  Map_get n l = None -> n ∉ Map_keys l.
Proof.
  unfold Map_get, Map_keys. induction l as [|[k x] l IH]; simpl.
  - intros _. apply not_elem_of_nil.
  - destruct (String.eqb_spec k n) as [->|Hne]; [done|]. intros Hn.
    apply not_elem_of_cons. split; [done|]. by apply IH.
Qed.

(** C3, as the code has it: with an invalid pattern and at least one
    connected server, [findTools] throws the invalid-pattern error and the
    manager state, with the log of requests, is the one from before, so no
    server was queried and no result or error entry exists; with no server
    connected it returns the empty result and the pattern is not looked
    at. *)
Theorem findTools_invalid_pattern pattern options m diagnostic :
  regexp_compile pattern (negb (default false (opt_caseSensitive options)))
    = inl diagnostic ->
  (clients m <> [] ->
     findTools pattern options m =
       (Throw (invalidPattern (mkError SyntaxErrorE diagnostic)), m)) /\
  (clients m = [] -> findTools pattern options m = (Ok ∅, m)).
Proof.
  intros Hbad. unfold findTools, getConnectedServers, Map_keys, newRegExp.
  rewrite Hbad. split; intros Hm.
  - by destruct (clients m).
  - by rewrite Hm.
Qed.

Lemma stored_other n entry : n <> "__proto__" -> stored n entry = entry.
Proof. unfold stored. by destruct (String.eqb_spec n "__proto__"). Qed.

Lemma findTools_lookup pattern options m matcher :
  regexp_compile pattern (negb (default false (opt_caseSensitive options)))
    = inr matcher ->
  exists results m',
    findTools pattern options m = (Ok results, m') /\
    clients m' = clients m /\
    forall n, results !! n =
      if decide (n ∈ getConnectedServers m) then
        stored n
          (entryFor (searchServer (default SearchBoth (opt_searchIn options))
                       (mkRegExp _ matcher false 0) n m).1.1)
      else None.
Proof.
  intros Hok. unfold findTools, newRegExp. rewrite Hok.
  case_bool_decide as Hempty.
  - exists ∅, m. repeat split; try done. intros n. rewrite lookup_empty.
    destruct (getConnectedServers m); [|done].
    by rewrite decide_False by apply not_elem_of_nil.
  - destruct (searchLoop_plain (default SearchBoth (opt_searchIn options))
                (getConnectedServers m) ∅ (mkRegExp _ matcher false 0) m)
      as (results & m' & Hm' & -> & Hlook); [done|].
    exists results, m'. repeat split; try done.
    intros n. rewrite Hlook, lookup_empty. case_decide; [|done].
    by destruct (stored n _).
Qed.

(** C6: with a valid pattern [findTools] returns normally for every
    registry.  Under the name of each connected server other than
    [__proto__] the result holds: the one-element error entry when listing
    that server's tools failed; the projected matching tools when it
    succeeded and at least one tool matches; nothing when none matches.
    This is so for each server whatever happens with the others, and names
    that are not connected have no entry.  Under the name [__proto__] the
    result never has an entry: the assignment to the plain result object
    stores nothing there, so a server of that name whose listing fails
    leaves no error entry. *)
Theorem findTools_isolates_failures pattern options m matcher :
  regexp_compile pattern (negb (default false (opt_caseSensitive options)))
    = inr matcher ->
  exists results m',
    findTools pattern options m = (Ok results, m') /\
    clients m' = clients m /\
    (forall n, Map_get n (clients m) = None -> results !! n = None) /\
    results !! "__proto__" = None /\
    forall n c, Map_get n (clients m) = Some c -> n <> "__proto__" ->
      match client_listTools c with
      | Throw e =>
          results !! n =
            Some [JObj [("error",
                         JStr ("Failed to search tools: " ++ message e))]]
      | Ok response =>
          forall items,
            getProp response "tools" = Ok (JArr items) ->
            Forall (fun t => nullish t = false) items ->
            let matched :=
              List.filter
                (matchesTool matcher
                   (default SearchBoth (opt_searchIn options))) items in
            results !! n =
              if bool_decide (matched = []) then None
              else Some (entryOf <$> matched)
      end.
Proof.
  intros Hok.
  destruct (findTools_lookup pattern options m matcher Hok)
    as (results & m' & Hrun & Hm' & Hlook).
  exists results, m'. split; [done|]. split; [done|]. split; [|split].
  - intros n Hn. rewrite Hlook.
    by rewrite decide_False by (by apply Map_get_not_keys).
  - rewrite Hlook. by case_decide.
  - intros n c Hn Hname. rewrite !Hlook.
    rewrite decide_True by (by eapply Map_get_keys).
    rewrite stored_other by done.
    unfold searchServer. rewrite (listTools_connected n c) by done.
    destruct (client_listTools c) as [response|e]; [|done].
    intros items Htools Hitems. rewrite Htools; simpl.
    rewrite filterTools_plain by done. simpl.
    set (matched := List.filter _ items).
    rewrite mapR_entryOf by (by apply filter_not_nullish). simpl.
    rewrite length_fmap. by destruct matched.
Qed.

End Queries.

(** ** The methods on the sample servers *)

Section OnSamples.
Import Sample.

Lemma hub_wf : Map_wf (clients hub).
Proof. apply (bool_decide_unpack _). vm_compute. exact I. Qed.

Lemma connect_registers_once_witness :
  let m' := (connectToServer "fs" (stdio "npx") fresh).2 in
  connectToServer "fs" (stdio "npx") fresh = (Ok (), m') /\
  count_occ String.string_dec (getConnectedServers m') "fs" = 1 /\
  is_Some (Map_get "fs" (clients m')) /\
  forall params2,
    connectToServer "fs" params2 m' = (Throw (alreadyConnected "fs"), m').
Proof.
  intros m'.
  assert (connectToServer "fs" (stdio "npx") fresh = (Ok (), m')) as Hok
    by (vm_compute; reflexivity).
  split; [exact Hok|]. exact (connect_registers_once _ _ _ _ Hok).
Defined.

Lemma connect_duplicate_before_validation_witness :
  is_Some (Map_get "fs" (clients hub)) /\
  connectToServer "fs" noParams hub = (Throw (alreadyConnected "fs"), hub) /\
  alreadyConnected "fs" <> requiresUrl "fs" /\
  alreadyConnected "fs" <> requiresCommand "fs".
Proof.
  assert (is_Some (Map_get "fs" (clients hub))) as Hfs
    by (exists filesystem; reflexivity).
  split; [exact Hfs|].
  exact (connect_duplicate_before_validation "fs" noParams hub Hfs).
Defined.

Lemma disconnect_removes_only_after_close_witness :
  Map_get "bad" (clients hub) = Some broken /\
  exists m',
    disconnectServer "bad" hub =
      (Throw (disconnectFailed "bad" (newError "Transport is not writable")),
       m') /\
    clients m' = clients hub /\
    Map_get "bad" (clients m') = Some broken /\
    wire m' = (wire hub ++ [ReqClose broken])%list.
Proof.
  split; [reflexivity|].
  exact (disconnect_removes_only_after_close "bad" broken hub hub_wf eq_refl).
Defined.

Lemma disconnectAll_fail_fast_witness :
  Forall (fun entry => client_close entry.2 = Ok ()) [("fs", filesystem)] /\
  client_close broken = Throw (newError "Transport is not writable") /\
  disconnectAll hub =
    (Throw (disconnectFailed "bad" (newError "Transport is not writable")),
     mkManager [("bad", broken); ("idle", idle); ("odd", malformed)]
               [ReqClose filesystem; ReqClose broken]).
Proof.
  assert (Forall (fun entry : string * Client => client_close entry.2 = Ok ())
            [("fs", filesystem)]) as Hfront
    by (repeat constructor).
  split; [exact Hfront|]. split; [reflexivity|].
  exact (disconnectAll_fail_fast [("fs", filesystem)] "bad" broken _
           [("idle", idle); ("odd", malformed)] [] Hfront eq_refl).
Defined.

Lemma listToolsInServer_names_and_descriptions_witness :
  Map_get "fs" (clients hub) = Some filesystem /\
  client_listTools filesystem = Ok (toolsResponse [readFile; file]) /\
  Forall (fun t => nullish t = false) [readFile; file] /\
  listToolsInServer "fs" hub =
    (Ok (JObj [("tools", JArr [entryOf readFile; entryOf file])]),
     send (ReqListTools filesystem) hub) /\
  Forall (fun e => hasField "inputSchema" e = false)
         [entryOf readFile; entryOf file].
Proof.
  assert (Forall (fun t => nullish t = false) [readFile; file]) as Hobj
    by (repeat constructor).
  do 3 (split; [done|]).
  exact (listToolsInServer_names_and_descriptions "fs" filesystem
           (toolsResponse [readFile; file]) [readFile; file] hub
           eq_refl eq_refl eq_refl Hobj).
Defined.

(** C4 as stated fails: the upstream of [fs] reports an input schema for
    each tool, and the entries of [listToolsInServer] have none. *)
Lemma listToolsInServer_drops_schema :
  client_listTools filesystem = Ok (toolsResponse [readFile; file]) /\
  Forall (fun t => hasField "inputSchema" t = true) [readFile; file] /\
  exists entries,
    (listToolsInServer "fs" hub).1 = Ok (JObj [("tools", JArr entries)]) /\
    Forall (fun e => hasField "inputSchema" e = false) entries /\
    entries <> [readFile; file].
Proof.
  split; [done|]. split; [by repeat constructor|].
  exists [entryOf readFile; entryOf file].
  split; [done|]. split; [by repeat constructor|]. discriminate.
Qed.

Lemma listing_tolerates_malformed_witness :
  Map_get "odd" (clients hub) = Some malformed /\
  client_listTools malformed = Ok (JObj []) /\
  noToolArray (prop (JObj []) "tools") = true /\
  listTools "odd" hub = (Ok (JObj []), send (ReqListTools malformed) hub) /\
  listToolsInServer "odd" hub =
    (Ok (JObj [("tools", JArr [])]), send (ReqListTools malformed) hub) /\
  client_listTools Fixtures.silent = Ok JNull /\
  listTools "silent" Fixtures.depot =
    (Ok JNull, send (ReqListTools Fixtures.silent) Fixtures.depot) /\
  listToolsInServer "silent" Fixtures.depot =
    (Throw (mkError TypeErrorE
              "Cannot read properties of null (reading 'tools')"),
     send (ReqListTools Fixtures.silent) Fixtures.depot) /\
  client_listTools idle = Ok (toolsResponse []) /\
  listToolsInServer "idle" hub =
    (Ok (JObj [("tools", JArr [])]), send (ReqListTools idle) hub).
Proof.
  pose proof (listing_tolerates_malformed "odd" malformed (JObj []) hub
                eq_refl eq_refl) as (Hraw & Hodd & _ & _).
  pose proof (listing_tolerates_malformed "silent" Fixtures.silent JNull
                Fixtures.depot eq_refl eq_refl) as (Hnull & _ & Hsilent & _).
  pose proof (listing_tolerates_malformed "idle" idle (toolsResponse []) hub
                eq_refl eq_refl) as (_ & _ & _ & Hidle).
  do 3 (split; [reflexivity|]). split; [exact Hraw|].
  split; [exact (Hodd eq_refl eq_refl)|]. split; [reflexivity|].
  split; [exact Hnull|]. split; [exact (Hsilent eq_refl)|].
  split; [reflexivity|exact (Hidle eq_refl)].
Defined.

(** C5 as stated fails: the answer of [odd] has no tool collection, and
    [listToolsInServer] returns an empty list instead of throwing. *)
Lemma listToolsInServer_malformed_no_error :
  client_listTools malformed = Ok (JObj []) /\
  hasField "tools" (JObj []) = false /\
  (listToolsInServer "odd" hub).1 = Ok (JObj [("tools", JArr [])]) /\
  (listTools "odd" hub).1 = Ok (JObj []).
Proof. done. Qed.

Lemma findTools_invalid_pattern_witness :
  regexp_compile "(" (negb (default false (opt_caseSensitive noOptions)))
    = inl unterminated /\
  (clients hub <> [] ->
     findTools "(" noOptions hub =
       (Throw (invalidPattern (mkError SyntaxErrorE unterminated)), hub)) /\
  (clients fresh = [] -> findTools "(" noOptions fresh = (Ok ∅, fresh)).
Proof.
  split; [reflexivity|]. split.
  - exact (proj1 (findTools_invalid_pattern "(" noOptions hub unterminated
                    eq_refl)).
  - exact (proj2 (findTools_invalid_pattern "(" noOptions fresh unterminated
                    eq_refl)).
Defined.

(** C3 as stated fails: the pattern does not compile, no server is
    connected, and [findTools] returns the empty result. *)
Lemma findTools_invalid_pattern_no_servers :
  regexp_compile "(" true = inl unterminated /\
  findTools "(" noOptions fresh = (Ok ∅, fresh) /\
  ~ exists e m', findTools "(" noOptions fresh = (Throw e, m').
Proof.
  split; [reflexivity|]. split; [reflexivity|].
  intros (e & m' & He). discriminate He.
Qed.

Lemma findTools_isolates_failures_witness :
  regexp_compile "file" (negb (default false (opt_caseSensitive noOptions)))
    = inr (true, literal "file") /\
  Map_get "bad" (clients Fixtures.polluted) = Some broken /\
  Map_get "__proto__" (clients Fixtures.polluted) = Some broken /\
  client_listTools broken = Throw (newError "Connection closed") /\
  exists results m',
    findTools "file" noOptions Fixtures.polluted = (Ok results, m') /\
    clients m' = clients Fixtures.polluted /\
    results !! "fs" = Some [entryOf readFile; entryOf file] /\
    results !! "bad" =
      Some [JObj [("error",
                   JStr "Failed to search tools: Connection closed")]] /\
    results !! "idle" = None /\
    results !! "elsewhere" = None /\
    results !! "__proto__" = None.
Proof.
  do 4 (split; [reflexivity|]).
  destruct (findTools_isolates_failures (RT := runtime) "file" noOptions
              Fixtures.polluted (true, literal "file") eq_refl)
    as (results & m' & Hrun & Hclients & Hnone & Hproto & Hsome).
  exists results, m'. split; [exact Hrun|]. split; [exact Hclients|].
  split; [|split; [|split; [|split]]].
  - exact (Hsome "fs" filesystem eq_refl ltac:(discriminate)
             [readFile; file] eq_refl ltac:(repeat constructor)).
  - exact (Hsome "bad" broken eq_refl ltac:(discriminate)).
  - exact (Hsome "idle" idle eq_refl ltac:(discriminate) [] eq_refl
             ltac:(constructor)).
  - exact (Hnone "elsewhere" eq_refl).
  - exact Hproto.
Defined.

Lemma search_drops_schema_getTool_keeps_it_witness :
  (exists entries m',
     findToolsInServer "fs" "file" SearchBoth false hub = (Ok entries, m') /\
     entries = [entryOf readFile] /\
     Forall (fun e => hasField "inputSchema" e = false) entries) /\
  (forall entries,
     found (findTools "file" noOptions hub) "fs" = Some entries ->
     Forall (fun e => hasField "inputSchema" e = false) entries) /\
  getTool "fs" "ReadFile" hub = (Ok readFile, send (ReqListTools filesystem) hub) /\
  hasField "inputSchema" readFile = true.
Proof.
  destruct (@search_drops_schema_getTool_keeps_it runtime)
    as (Hin & Hall & Hget).
  split; [|split].
  - exists [entryOf readFile], (send (ReqListTools filesystem) hub).
    assert (findToolsInServer "fs" "file" SearchBoth false hub =
              (Ok [entryOf readFile], send (ReqListTools filesystem) hub))
      as Hrun by reflexivity.
    split; [exact Hrun|]. split; [reflexivity|].
    exact (Hin _ _ _ _ _ _ _ Hrun).
  - intros entries. unfold found.
    destruct (findTools "file" noOptions hub) as [[results|e] m'] eqn:Hrun;
      simpl; [|discriminate].
    exact (Hall _ _ _ _ _ Hrun "fs" entries).
  - destruct (Hget "fs" "ReadFile" hub filesystem
                (toolsResponse [readFile; file]) [readFile; file] readFile
                eq_refl eq_refl eq_refl ltac:(repeat constructor)
                ltac:(apply list_elem_of_here) eq_refl)
      as (pre & t & post & Hitems & Hpre & Ht & Hrun & Hschema).
    assert (findByName "ReadFile" [readFile; file] = Ok readFile) as Hfirst
      by reflexivity.
    assert (getTool "fs" "ReadFile" hub =
              (Ok readFile, send (ReqListTools filesystem) hub)) as Hrun'
      by reflexivity.
    split; [exact Hrun'|].
    rewrite Hrun in Hrun'. injection Hrun' as ->.
    apply Hschema. repeat constructor.
Defined.

(** C2: the expression of [findToolsInServer] carries the [g] flag, so a
    match in one tool moves [lastIndex] and the next tool is tested from
    there.  On [fs] both tool names contain the pattern, as the stateless
    reading and [findTools] agree, yet [findToolsInServer] returns the first
    tool only. *)
Theorem findToolsInServer_skips_after_match :
  client_listTools filesystem = Ok (toolsResponse [readFile; file]) /\
  regexp_compile "file" true = inr (true, literal "file") /\
  List.filter (matchesTool (true, literal "file") SearchName) [readFile; file]
    = [readFile; file] /\
  found (findTools "file" searchNames hub) "fs"
    = Some [entryOf readFile; entryOf file] /\
  (findToolsInServer "fs" "file" SearchName false hub).1
    = Ok [entryOf readFile] /\
  (filterTools SearchName (mkRegExp _ (true, literal "file") true 0)
     [readFile; file]).2
    = mkRegExp _ (true, literal "file") true 0 /\
  (toolMatches SearchName (mkRegExp _ (true, literal "file") true 0)
     readFile).2
    = mkRegExp _ (true, literal "file") true 8.
Proof.
  repeat split; reflexivity.
Qed.

End OnSamples.

(** * Further properties of the lifecycle *)

Section MoreLifecycle.
Context `{RT : Runtime}.

Ltac run :=
  unfold mbind, mret, M_bind, M_ret, throw, lift, try_catch,
    clients_has, clients_set, clients_delete, sdk_connect, sdk_close,
    sdk_listTools, sdk_callTool, getClient, send in *; simpl in *.

Lemma makeTransport_pure n p m :
  makeTransport n p m = (transportOf n p, m).
Proof.
  unfold transportOf, makeTransport. run.
  repeat (case_match; simplify_eq; simpl); done.
Qed.

Lemma connect_fresh n p m :
  Map_has n (clients m) = false ->
  connectToServer n p m =
    match transportOf n p with
    | Throw e => (Throw e, m)
    | Ok t =>
        match client_connect (clientName n) t with
        | Ok c => (Ok (), mkManager (Map_set n c (clients m))
                                    (wire m ++ [ReqConnect (clientName n) t]))
        | Throw e => (Throw (connectFailed n e),
                      mkManager (clients m)
                                (wire m ++ [ReqConnect (clientName n) t]))
        end
    end.
Proof.
  intros Hn. unfold connectToServer. run. rewrite Hn.
  rewrite makeTransport_pure. destruct (transportOf n p) as [t|e]; [|done].
  unfold clientName. by destruct (client_connect _ t).
Qed.

Lemma Map_has_None {A} n (l : list (string * A)) :
  Map_has n l = false <-> Map_get n l = None.
Proof. unfold Map_has, Map_get. by destruct (assoc n l). Qed.

Lemma Map_get_set_ne {A} k k' (v : A) l :
  k <> k' -> Map_get k' (Map_set k v l) = Map_get k' l.
Proof.
  unfold Map_get. intros Hne. induction l as [|[k2 v2] l IH]; simpl.
  - by destruct (String.eqb_spec k k').
  - destruct (String.eqb_spec k2 k) as [->|Hne2]; simpl.
    + by destruct (String.eqb_spec k k').
    + by rewrite IH.
Qed.

Lemma Map_keys_set_fresh {A} k (v : A) l :
  Map_has k l = false -> Map_keys (Map_set k v l) = (Map_keys l ++ [k])%list.
Proof. intros Hk. rewrite Map_set_fresh by done. unfold Map_keys. by rewrite map_app. Qed.

Lemma Map_has_false_keys {A} k (l : list (string * A)) :
  Map_has k l = false <-> k ∉ Map_keys l.
Proof.
  unfold Map_has, Map_keys. induction l as [|[k2 v2] l IH]; simpl.
  - split; [intros _; apply not_elem_of_nil|done].
  - rewrite not_elem_of_cons.
    destruct (String.eqb_spec k2 k) as [->|Hne]; [split; [done|tauto]|].
    rewrite IH. split; [by intros ?; split|tauto].
Qed.

Lemma Map_wf_set_fresh {A} k (v : A) l :
  Map_wf l -> Map_has k l = false -> Map_wf (Map_set k v l).
Proof.
  unfold Map_wf. intros Hwf Hk. rewrite Map_keys_set_fresh by done.
  apply NoDup_app. split; [done|]. split; [|apply NoDup_singleton].
  intros x Hx ->%list_elem_of_singleton. by apply Map_has_false_keys in Hk.
Qed.

Lemma Map_keys_delete_sublist {A} k (l : list (string * A)) :
  sublist (Map_keys (Map_delete k l)) (Map_keys l).
Proof.
  unfold Map_keys. induction l as [|[k2 v2] l IH]; simpl; [done|].
  destruct (String.eqb k2 k); simpl.
  - by apply sublist_cons.
  - by apply sublist_skip.
Qed.

Lemma Map_wf_delete {A} k (l : list (string * A)) :
  Map_wf l -> Map_wf (Map_delete k l).
Proof.
  unfold Map_wf. intros Hwf.
  eapply sublist_NoDup; [done|apply Map_keys_delete_sublist].
Qed.

Lemma Map_delete_set_fresh {A} k (v : A) l :
  Map_has k l = false -> Map_delete k (Map_set k v l) = l.
Proof.
  unfold Map_has. induction l as [|[k2 v2] l IH]; simpl.
  - by rewrite String.eqb_refl.
  - destruct (String.eqb_spec k2 k) as [->|Hne]; [discriminate|]. simpl.
    destruct (String.eqb_spec k2 k); [done|]. intros Hk. by rewrite IH.
Qed.

(** X1: a connection attempt whose parameters do not pass validation
    throws the validation error and changes nothing: no request is sent and
    the registry is as before.  An explicit kind decides which field is
    required, whatever other fields are present; without a kind and without
    a command the parameters are taken for a network server. *)
Theorem connect_validation_sends_nothing n p m :
  Map_get n (clients m) = None ->
  (nonEmpty (p_type p) = Some "http" \/
   nonEmpty (p_type p) = None /\ nonEmpty (p_command p) = None ->
   (nonEmpty (p_url p) = None ->
      connectToServer n p m = (Throw (requiresUrl n), m)) /\
   (forall u, nonEmpty (p_url p) = Some u -> url_parse u = None ->
      connectToServer n p m = (Throw (mkError TypeErrorE "Invalid URL"), m)))
  /\
  (forall kind,
     nonEmpty (p_type p) = Some kind -> kind <> "http" ->
     nonEmpty (p_command p) = None ->
     connectToServer n p m = (Throw (requiresCommand n), m)).
Proof.
  intros Hn%Map_has_None. rewrite connect_fresh by done.
  unfold transportOf, makeTransport, transportType. run. split.
  - intros Hkind. split.
    + intros Hurl. destruct Hkind as [->|[-> ->]]; simpl; by rewrite Hurl.
    + intros u Hurl Hbad.
      destruct Hkind as [->|[-> ->]]; simpl; by rewrite Hurl, Hbad.
  - intros kind -> Hk Hcmd. rewrite Hcmd.
    by destruct (String.eqb_spec kind "http").
Qed.

(** X2: when the handshake fails, [connectToServer] throws the connection
    error that names the server and carries the cause; the one connect
    request was sent and the registry is as before. *)
Theorem connect_handshake_failure n p m t e :
  Map_get n (clients m) = None ->
  transportOf n p = Ok t ->
  client_connect (clientName n) t = Throw e ->
  connectToServer n p m =
    (Throw (connectFailed n e),
     mkManager (clients m) (wire m ++ [ReqConnect (clientName n) t])) /\
  message (connectFailed n e) =
    "Failed to connect to server '" ++ n ++ "': " ++ message e.
Proof.
  intros Hn%Map_has_None Ht He. rewrite connect_fresh by done.
  by rewrite Ht, He.
Qed.

Lemma Object_assign_lookup target source k :
  Object_assign target source !! k =
    match source !! k with
    | Some v =>
        if String.eqb k "__proto__" then
          match target !! k with Some _ => Some v | None => None end
        else Some v
    | None => target !! k
    end.
Proof.
  unfold Object_assign.
  destruct (String.eqb_spec k "__proto__") as [->|Hk].
  - destruct (target !! "__proto__") eqn:Ht; rewrite lookup_union.
    + rewrite Ht. by destruct (source !! "__proto__").
    + rewrite lookup_delete_eq, Ht. by destruct (source !! "__proto__").
  - destruct (target !! "__proto__"); rewrite lookup_union;
      rewrite ?lookup_delete_ne by done;
      by destruct (source !! k), (target !! k).
Qed.

(** X3: the transport handed to the handshake.  For a local process it has
    the command, the arguments (none when absent) and the process
    environment overlaid with the parameters' [env], whose values win; the
    one exception is the key [__proto__], which [Object.assign] only writes
    when the process environment already has a variable of that name.  For
    a network server the transport has the parsed URL and the headers as
    given. *)
Theorem connect_transport n p m :
  Map_get n (clients m) = None ->
  (forall command,
     transportType p <> "http" -> nonEmpty (p_command p) = Some command ->
     exists env,
       wire (connectToServer n p m).2 =
         (wire m ++ [ReqConnect (clientName n)
                       (StdioClientTransport command
                          (default [] (p_args p)) env)])%list /\
       (forall k, k <> "__proto__" ->
          env !! k =
            match default ∅ (p_env p) !! k with
            | Some v => Some v
            | None => process_env !! k
            end) /\
       env !! "__proto__" =
         match process_env !! "__proto__" with
         | Some inherited =>
             Some (default inherited (default ∅ (p_env p) !! "__proto__"))
         | None => None
         end) /\
  (forall u href,
     transportType p = "http" -> nonEmpty (p_url p) = Some u ->
     url_parse u = Some href ->
     wire (connectToServer n p m).2 =
       (wire m ++ [ReqConnect (clientName n)
                     (StreamableHTTPClientTransport href (p_headers p))])%list).
Proof.
  intros Hn%Map_has_None. rewrite connect_fresh by done.
  unfold transportOf, makeTransport. run. split.
  - intros command Hkind Hcmd.
    destruct (String.eqb_spec (transportType p) "http"); [done|].
    rewrite Hcmd. simpl. eexists. split; [by destruct (client_connect _ _)|].
    destruct (p_env p) as [source|]; simpl.
    + split.
      * intros k Hk. rewrite Object_assign_lookup.
        destruct (String.eqb_spec k "__proto__"); [done|].
        by destruct (source !! k).
      * rewrite Object_assign_lookup, String.eqb_refl.
        by destruct (source !! "__proto__"), (process_env !! "__proto__").
    + split.
      * intros k _. by rewrite lookup_empty.
      * rewrite lookup_empty. by destruct (process_env !! "__proto__").
  - intros u href -> Hurl Hhref. simpl. rewrite Hurl, Hhref. simpl.
    by destruct (client_connect _ _).
Qed.

(** X4: a successful [connectToServer] stores the client the handshake
    produced under the new name, which comes last in the list of connected
    servers; every other session stays where it was and the keys of the
    registry stay distinct. *)
Theorem connect_extends_registry n p m m' :
  connectToServer n p m = (Ok (), m') ->
  exists c,
    dial n p = Some c /\
    clients m' = (clients m ++ [(n, c)])%list /\
    getConnectedServers m' = (getConnectedServers m ++ [n])%list /\
    Map_get n (clients m') = Some c /\
    (forall k, n <> k -> Map_get k (clients m') = Map_get k (clients m)) /\
    (Map_wf (clients m) -> Map_wf (clients m')).
Proof.
  intros Hrun.
  destruct (connect_success n p m m' Hrun) as (Hn & _).
  rewrite connect_fresh in Hrun by done. unfold dial.
  destruct (transportOf n p) as [t|]; [|discriminate].
  destruct (client_connect (clientName n) t) as [c|]; [|discriminate].
  injection Hrun as <-. exists c. simpl. split; [done|].
  split; [by apply Map_set_fresh|].
  split; [by apply Map_keys_set_fresh|].
  split; [apply Map_get_set|].
  split; [by intros k Hk; apply Map_get_set_ne|].
  intros Hwf. by apply Map_wf_set_fresh.
Qed.

(** X5: connecting a server and then disconnecting it, with a close that
    succeeds, gives back the registry from before the connection. *)
Theorem connect_disconnect_round_trip n p m m1 c :
  connectToServer n p m = (Ok (), m1) ->
  Map_get n (clients m1) = Some c ->
  client_close c = Ok () ->
  exists m2, disconnectServer n m1 = (Ok (), m2) /\ clients m2 = clients m.
Proof.
  intros Hrun Hc Hclose.
  destruct (connect_success n p m m1 Hrun) as (Hn & t & c' & _ & ->).
  eexists. split; [by apply disconnect_closed|]. simpl.
  by apply Map_delete_set_fresh.
Qed.

(** X6: when every session closes, [disconnectAll] returns normally with an
    empty registry, after one close request per session in registry
    order. *)
Theorem disconnectAll_closes_everything m :
  Forall (fun entry => client_close entry.2 = Ok ()) (clients m) ->
  disconnectAll m =
    (Ok (), mkManager []
              (wire m ++ map (fun entry => ReqClose entry.2) (clients m))).
Proof.
  destruct m as [cl w]. unfold disconnectAll, getConnectedServers; simpl.
  intros Hall. revert w.
  induction Hall as [|[k v] cl Hv _ IH]; intros w; simpl.
  - by rewrite app_nil_r.
  - unfold mbind, M_bind. simpl in Hv.
    rewrite (disconnect_closed k v (mkManager ((k, v) :: cl) w)
               (Map_get_head _ _ _) Hv).
    simpl. rewrite String.eqb_refl.
    fold (@mbind M _ unit unit). unfold mbind, M_bind in IH.
    rewrite IH. by rewrite <- app_assoc.
Qed.

Lemma disconnectAll_leaves_suffix cl w :
  clients (disconnectAll (mkManager cl w)).2 `suffix_of` cl.
Proof.
  unfold disconnectAll, getConnectedServers; simpl. revert w.
  induction cl as [|[k v] cl IH]; intros w; simpl; [done|].
  unfold mbind, M_bind.
  destruct (client_close v) as [[]|e] eqn:Hv.
  - rewrite (disconnect_closed k v (mkManager ((k, v) :: cl) w)
               (Map_get_head _ _ _) Hv).
    simpl. rewrite String.eqb_refl.
    fold (@mbind M _ unit unit). unfold mbind, M_bind in IH.
    by apply suffix_cons_r.
  - by rewrite (disconnect_failed k v e (mkManager ((k, v) :: cl) w)
                  (Map_get_head _ _ _) Hv).
Qed.

(** X7: no lifecycle method ever leaves a name twice in the registry:
    whatever their outcome, [connectToServer], [disconnectServer] and
    [disconnectAll] turn a registry with distinct keys into one with
    distinct keys. *)
Theorem lifecycle_keeps_keys_distinct m :
  Map_wf (clients m) ->
  (forall n p, Map_wf (clients (connectToServer n p m).2)) /\
  (forall n, Map_wf (clients (disconnectServer n m).2)) /\
  Map_wf (clients (disconnectAll m).2).
Proof.
  intros Hwf. split; [|split].
  - intros n p. destruct (Map_has n (clients m)) eqn:Hn.
    + by rewrite connect_when_connected.
    + rewrite connect_fresh by done.
      destruct (transportOf n p) as [t|]; [|done].
      destruct (client_connect _ t); simpl; [|done].
      by apply Map_wf_set_fresh.
  - intros n. unfold disconnectServer. run.
    destruct (Map_get n (clients m)) as [c|]; [|done].
    destruct (client_close c); simpl; [|done]. by apply Map_wf_delete.
  - destruct m as [cl w]. simpl in Hwf. unfold Map_wf, Map_keys in *.
    destruct (disconnectAll_leaves_suffix cl w) as [front Hcl].
    rewrite Hcl, map_app in Hwf. by apply NoDup_app in Hwf as (_ & _ & ?).
Qed.

(** X8: under a name that is not connected every method that needs a
    session throws the not-connected error, sends nothing and leaves the
    manager state alone. *)
Theorem not_connected_errors n m :
  Map_get n (clients m) = None ->
  listTools n m = (Throw (notConnected n), m) /\
  (forall toolName args,
     callTool n toolName args m = (Throw (notConnected n), m)) /\
  (forall toolName, getTool n toolName m = (Throw (notConnected n), m)) /\
  listToolsInServer n m = (Throw (notConnected n), m) /\
  (forall pattern searchIn caseSensitive,
     findToolsInServer n pattern searchIn caseSensitive m =
       (Throw (notConnected n), m)) /\
  disconnectServer n m = (Throw (notConnected n), m).
Proof.
  intros Hn.
  unfold listTools, callTool, getTool, listToolsInServer, findToolsInServer,
    disconnectServer.
  run. by rewrite Hn.
Qed.

End MoreLifecycle.

(** * Further properties of the queries *)

Section MoreQueries.
Context `{RT : Runtime}.

Ltac run :=
  unfold mbind, mret, M_bind, M_ret, Result_bind, throw, lift, try_catch,
    sdk_listTools, sdk_callTool, getClient, send in *; simpl in *.

(** X9: a query under a connected name is one round trip to that server's
    client.  [listTools] and [callTool] hand back the upstream's answer or
    rejection as it came; [getTool], [listToolsInServer] and
    [findToolsInServer] send the one list request whatever they go on to
    return; none of them touches the registry. *)
Theorem query_is_one_round_trip n c m :
  Map_get n (clients m) = Some c ->
  listTools n m = (client_listTools c, send (ReqListTools c) m) /\
  (forall toolName args,
     callTool n toolName args m =
       (client_callTool c toolName args,
        send (ReqCallTool c toolName args) m)) /\
  (forall toolName, (getTool n toolName m).2 = send (ReqListTools c) m) /\
  (listToolsInServer n m).2 = send (ReqListTools c) m /\
  (forall pattern searchIn caseSensitive,
     (findToolsInServer n pattern searchIn caseSensitive m).2 =
       send (ReqListTools c) m).
Proof.
  intros Hn. split; [by apply listTools_connected|].
  unfold callTool, getTool, listToolsInServer, findToolsInServer. run.
  rewrite Hn. repeat split; intros;
    repeat (case_match; simplify_eq; simpl); done.
Qed.

Lemma findByName_none toolName items :
  Forall (fun t => nullish t = false) items ->
  Forall (fun t => named toolName t = false) items ->
  findByName toolName items = Ok JUndefined.
Proof.
  unfold named. intros Hitems Hnames.
  induction Hitems as [|x items Hx _ IH]; simpl; [done|].
  apply Forall_cons in Hnames as [Hxn Hnames].
  rewrite getProp_prop by done. unfold mbind, Result_bind.
  destruct (prop x "name"); auto. rewrite Hxn. auto.
Qed.

(** X10: the failures of [getTool] on a connected server.  A rejected list
    request is passed on as it is; a response without a tool sequence gives
    the no-tools error; a tool sequence in which no descriptor has exactly
    the requested name gives the tool-not-found error that names tool and
    server. *)
Theorem getTool_failures n c toolName m :
  Map_get n (clients m) = Some c ->
  (forall e, client_listTools c = Throw e ->
     (getTool n toolName m).1 = Throw e) /\
  (forall response tools,
     client_listTools c = Ok response ->
     getProp response "tools" = Ok tools ->
     noToolArray tools = true ->
     (getTool n toolName m).1 =
       Throw (newError ("No tools found on server '" ++ n ++ "'"))) /\
  (forall response items,
     client_listTools c = Ok response ->
     getProp response "tools" = Ok (JArr items) ->
     Forall (fun t => nullish t = false) items ->
     Forall (fun t => named toolName t = false) items ->
     (getTool n toolName m).1 =
       Throw (newError ("Tool '" ++ toolName ++ "' not found on server '"
                        ++ n ++ "'"))).
Proof.
  intros Hn. unfold getTool. run. rewrite Hn. repeat split.
  - by intros e ->.
  - intros response tools -> -> Hbad. simpl. by rewrite Hbad.
  - intros response items -> -> Hitems Hnames. simpl.
    by rewrite findByName_none.
Qed.

(** X11: [findToolsInServer] compiles the pattern only after the server has
    answered with a tool sequence.  An invalid pattern then surfaces as the
    engine's own syntax error, not wrapped, with the list request already
    sent; against a response without a tool sequence the same pattern goes
    unnoticed and the result is empty. *)
Theorem findToolsInServer_invalid_pattern n c response tools pattern searchIn
    caseSensitive diagnostic m :
  Map_get n (clients m) = Some c ->
  client_listTools c = Ok response ->
  getProp response "tools" = Ok tools ->
  regexp_compile pattern (negb caseSensitive) = inl diagnostic ->
  findToolsInServer n pattern searchIn caseSensitive m =
    (if noToolArray tools then Ok []
     else Throw (mkError SyntaxErrorE diagnostic),
     send (ReqListTools c) m).
Proof.
  intros Hn Hc Htools Hbad. unfold findToolsInServer, newRegExp. run.
  rewrite Hn, Hc, Htools. simpl. destruct (noToolArray tools); [done|].
  by rewrite Hbad.
Qed.

(** *** The shared expression of [findToolsInServer] *)

Lemma RegExp_test_at_zero regex s :
  lastIndex regex = 0 ->
  (RegExp_test regex s).1 =
    match regexp_search (re_matcher regex) s 0 with
    | Some _ => true
    | None => false
    end /\
  ((RegExp_test regex s).1 = false -> (RegExp_test regex s).2 = regex).
Proof.
  destruct regex as [matcher global idx]; simpl. intros ->.
  unfold RegExp_test, setLastIndex; simpl.
  destruct global; simpl; by destruct (regexp_search matcher s 0).
Qed.

Lemma fieldMatch_at_zero enabled field regex tool :
  lastIndex regex = 0 -> nullish tool = false ->
  exists b regex',
    fieldMatch enabled field regex tool = (Ok b, regex') /\
    b = enabled && fieldHits (re_matcher regex) (prop tool field) /\
    (b = false -> regex' = regex).
Proof.
  intros Hz Htool. unfold fieldMatch, fieldHits.
  destruct enabled; [|by exists false, regex].
  rewrite getProp_prop by done.
  destruct (truthy (prop tool field)); [|by exists false, regex].
  destruct (RegExp_test_at_zero regex (toString (prop tool field)) Hz)
    as [Hb Hre].
  destruct (RegExp_test regex _) as [b regex']; simpl in *.
  by exists b, regex'.
Qed.

Lemma fieldMatch_total enabled field regex tool :
  nullish tool = false ->
  exists b regex', fieldMatch enabled field regex tool = (Ok b, regex').
Proof.
  intros Htool. unfold fieldMatch. destruct enabled; [|by eexists _, _].
  rewrite getProp_prop by done.
  destruct (truthy (prop tool field)); [|by eexists _, _].
  destruct (RegExp_test regex _). by eexists _, _.
Qed.

Lemma toolMatches_at_zero searchIn regex tool :
  lastIndex regex = 0 -> nullish tool = false ->
  exists regex',
    toolMatches searchIn regex tool =
      (Ok (matchesTool (re_matcher regex) searchIn tool), regex') /\
    (matchesTool (re_matcher regex) searchIn tool = false -> regex' = regex).
Proof.
  intros Hz Htool. unfold toolMatches, matchesTool.
  destruct (fieldMatch_at_zero (negb (isDescription searchIn)) "name"
              regex tool Hz Htool) as (nm & regex1 & -> & -> & Hre1).
  destruct (negb (isDescription searchIn)
            && fieldHits (re_matcher regex) (prop tool "name")) eqn:Hnm.
  - destruct (fieldMatch_total (negb (isName searchIn)) "description"
                regex1 tool Htool) as (dm & regex2 & ->).
    exists regex2. by split.
  - rewrite (Hre1 eq_refl).
    destruct (fieldMatch_at_zero (negb (isName searchIn)) "description"
                regex tool Hz Htool) as (dm & regex2 & -> & -> & Hre2).
    exists regex2. by split.
Qed.

Lemma toolMatches_total searchIn regex tool :
  nullish tool = false ->
  exists b regex', toolMatches searchIn regex tool = (Ok b, regex').
Proof.
  intros Htool. unfold toolMatches.
  destruct (fieldMatch_total (negb (isDescription searchIn)) "name"
              regex tool Htool) as (nm & regex1 & ->).
  destruct (fieldMatch_total (negb (isName searchIn)) "description"
              regex1 tool Htool) as (dm & regex2 & ->).
  by eexists _, _.
Qed.

Lemma filterTools_total searchIn regex tools :
  Forall (fun t => nullish t = false) tools ->
  exists kept regex',
    filterTools searchIn regex tools = (Ok kept, regex') /\
    Forall (fun t => nullish t = false) kept.
Proof.
  intros Htools. revert regex.
  induction Htools as [|t tools Ht _ IH]; intros regex; simpl.
  - by exists [], regex.
  - destruct (toolMatches_total searchIn regex t Ht) as (b & regex1 & ->).
    destruct (IH regex1) as (kept & regex2 & -> & Hkept).
    exists (if b then t :: kept else kept), regex2. split; [done|].
    destruct b; [by constructor|done].
Qed.

Lemma filterTools_no_match searchIn regex tools :
  lastIndex regex = 0 ->
  Forall (fun t => nullish t = false) tools ->
  Forall (fun t => matchesTool (re_matcher regex) searchIn t = false) tools ->
  filterTools searchIn regex tools = (Ok [], regex).
Proof.
  intros Hz Htools Hnone.
  induction Htools as [|t tools Ht _ IH]; simpl; [done|].
  apply Forall_cons in Hnone as [Hno Hnone].
  destruct (toolMatches_at_zero searchIn regex t Hz Ht) as (regex1 & -> & Hre).
  rewrite Hno. rewrite (Hre Hno). by rewrite IH.
Qed.

Lemma filterTools_first_match searchIn regex pre t post :
  lastIndex regex = 0 ->
  Forall (fun t => nullish t = false) (pre ++ t :: post) ->
  Forall (fun t => matchesTool (re_matcher regex) searchIn t = false) pre ->
  matchesTool (re_matcher regex) searchIn t = true ->
  exists kept regex',
    filterTools searchIn regex (pre ++ t :: post) = (Ok (t :: kept), regex') /\
    Forall (fun t => nullish t = false) kept.
Proof.
  intros Hz Hall Hpre Ht. induction Hpre as [|x pre Hx _ IH]; simpl.
  - apply Forall_cons in Hall as [Htn Hpost].
    destruct (toolMatches_at_zero searchIn regex t Hz Htn) as (regex1 & -> & _).
    rewrite Ht.
    destruct (filterTools_total searchIn regex1 post Hpost)
      as (kept & regex2 & -> & Hkept).
    by exists kept, regex2.
  - simpl in Hall. apply Forall_cons in Hall as [Hxn Hall].
    destruct (toolMatches_at_zero searchIn regex x Hz Hxn)
      as (regex1 & -> & Hre).
    rewrite Hx. rewrite (Hre Hx).
    destruct (IH Hall) as (kept & regex2 & -> & Hkept).
    by exists kept, regex2.
Qed.

(** X12: although the expression of [findToolsInServer] is stateful, the
    first tool that matches is never lost: when the upstream's tools are
    descriptors and [t] is the first one matching the pattern, the result
    starts with the entry of [t]; when no tool matches, the result is
    empty. *)
Theorem findToolsInServer_first_match n c response items pattern searchIn
    caseSensitive matcher m :
  Map_get n (clients m) = Some c ->
  client_listTools c = Ok response ->
  getProp response "tools" = Ok (JArr items) ->
  Forall (fun t => nullish t = false) items ->
  regexp_compile pattern (negb caseSensitive) = inr matcher ->
  (Forall (fun t => matchesTool matcher searchIn t = false) items ->
   findToolsInServer n pattern searchIn caseSensitive m =
     (Ok [], send (ReqListTools c) m)) /\
  (forall pre t post,
     items = (pre ++ t :: post)%list ->
     Forall (fun t => matchesTool matcher searchIn t = false) pre ->
     matchesTool matcher searchIn t = true ->
     exists rest,
       findToolsInServer n pattern searchIn caseSensitive m =
         (Ok (entryOf t :: rest), send (ReqListTools c) m)).
Proof.
  intros Hn Hc Htools Hitems Hok.
  unfold findToolsInServer, newRegExp. run.
  rewrite Hn, Hc, Htools, Hok. simpl. split.
  - intros Hnone. by rewrite filterTools_no_match.
  - intros pre t post -> Hpre Ht.
    destruct (filterTools_first_match searchIn (mkRegExp _ matcher true 0)
                pre t post eq_refl Hitems Hpre Ht)
      as (kept & regex' & -> & Hkept).
    simpl. rewrite nameAndDescription_entryOf.
    + rewrite mapR_entryOf by done. by eexists.
    + apply Forall_app in Hitems as [_ Htl]. by apply Forall_cons in Htl as [? _].
Qed.

Lemma RegExp_test_forward regex s :
  searchesForward (re_matcher regex) ->
  (RegExp_test regex s).1 = true ->
  is_Some (regexp_search (re_matcher regex) s 0).
Proof.
  intros Hfw. unfold RegExp_test.
  destruct (re_global regex).
  - destruct (String.length s <? lastIndex regex)%nat; [done|].
    destruct (regexp_search _ s (lastIndex regex)) eqn:Hs; [|done].
    intros _. by eapply Hfw.
  - by destruct (regexp_search _ s 0).
Qed.

Lemma RegExp_test_matcher regex s :
  re_matcher (RegExp_test regex s).2 = re_matcher regex.
Proof.
  unfold RegExp_test, setLastIndex.
  repeat (case_match; simplify_eq; simpl); done.
Qed.

Lemma fieldMatch_forward enabled field regex tool b regex' :
  searchesForward (re_matcher regex) -> nullish tool = false ->
  fieldMatch enabled field regex tool = (Ok b, regex') ->
  re_matcher regex' = re_matcher regex /\
  (b = true -> enabled && fieldHits (re_matcher regex) (prop tool field) = true).
Proof.
  intros Hfw Htool. unfold fieldMatch, fieldHits.
  destruct enabled; [|by intros [= <- <-]].
  rewrite getProp_prop by done.
  destruct (truthy (prop tool field)); [|by intros [= <- <-]].
  pose proof (RegExp_test_forward regex (toString (prop tool field)) Hfw) as H.
  pose proof (RegExp_test_matcher regex (toString (prop tool field))) as Hm.
  destruct (RegExp_test regex _) as [b' regex1]; simpl in *.
  intros [= <- <-]. split; [done|]. intros ->.
  by destruct (H eq_refl) as [e ->].
Qed.

Lemma toolMatches_forward searchIn regex tool b regex' :
  searchesForward (re_matcher regex) -> nullish tool = false ->
  toolMatches searchIn regex tool = (Ok b, regex') ->
  re_matcher regex' = re_matcher regex /\
  (b = true -> matchesTool (re_matcher regex) searchIn tool = true).
Proof.
  intros Hfw Htool. unfold toolMatches, matchesTool.
  destruct (fieldMatch _ "name" regex tool) as [[nm|] regex1] eqn:H1;
    [|discriminate].
  apply fieldMatch_forward in H1 as [Hm1 Hnm]; [|done..].
  destruct (fieldMatch _ "description" regex1 tool) as [[dm|] regex2] eqn:H2;
    [|discriminate].
  apply fieldMatch_forward in H2 as [Hm2 Hdm]; [|by rewrite Hm1|done].
  rewrite Hm1 in *. intros [= <- <-]. split; [done|].
  intros [->%Hnm| ->%Hdm]%orb_true_iff; [done|]. apply orb_true_r.
Qed.

Lemma filterTools_forward searchIn regex tools kept regex' :
  searchesForward (re_matcher regex) ->
  Forall (fun t => nullish t = false) tools ->
  filterTools searchIn regex tools = (Ok kept, regex') ->
  kept `sublist_of` List.filter (matchesTool (re_matcher regex) searchIn) tools.
Proof.
  intros Hfw Htools. revert regex kept regex' Hfw.
  induction Htools as [|t tools Ht _ IH]; intros regex kept regex' Hfw; simpl.
  - by intros [= <- _].
  - destruct (toolMatches searchIn regex t) as [[b|] regex1] eqn:H1;
      [|discriminate].
    apply toolMatches_forward in H1 as [Hm Hb]; [|done..].
    destruct (filterTools searchIn regex1 tools) as [[kept1|] regex2] eqn:H2;
      [|discriminate].
    apply IH in H2; [|by rewrite Hm]. rewrite Hm in H2.
    intros [= <- _]. destruct b.
    + rewrite (Hb eq_refl). by apply sublist_skip.
    + destruct (matchesTool _ _ t); [by apply sublist_cons|done].
Qed.

(** X13: [findToolsInServer] returns no tool that does not match.  With a
    regular-expression engine whose search from a later index never finds
    what a search from the start would miss, the entries returned are, in
    order, entries of tools that match the pattern in a selected field. *)
Theorem findToolsInServer_only_matches n c response items pattern searchIn
    caseSensitive matcher m entries m' :
  searchesForward matcher ->
  Map_get n (clients m) = Some c ->
  client_listTools c = Ok response ->
  getProp response "tools" = Ok (JArr items) ->
  Forall (fun t => nullish t = false) items ->
  regexp_compile pattern (negb caseSensitive) = inr matcher ->
  findToolsInServer n pattern searchIn caseSensitive m = (Ok entries, m') ->
  exists kept,
    entries = entryOf <$> kept /\
    kept `sublist_of` List.filter (matchesTool matcher searchIn) items.
Proof.
  intros Hfw Hn Hc Htools Hitems Hok.
  unfold findToolsInServer, newRegExp. run.
  rewrite Hn, Hc, Htools, Hok. simpl.
  destruct (filterTools_total searchIn (mkRegExp _ matcher true 0) items Hitems)
    as (kept & regex' & Hrun & Hkept).
  rewrite Hrun. simpl. rewrite mapR_entryOf by done.
  intros [= <- _]. exists kept. split; [done|].
  by apply (filterTools_forward searchIn (mkRegExp _ matcher true 0)
              items kept regex').
Qed.

(** *** More on the loop of [findTools] *)

Lemma searchServer_state searchIn regex n c m :
  Map_get n (clients m) = Some c ->
  (searchServer searchIn regex n m).2 = send (ReqListTools c) m.
Proof.
  intros Hn. unfold searchServer. rewrite (listTools_connected n c) by done.
  repeat (case_match; simplify_eq; simpl); done.
Qed.

Lemma searchStep_state searchIn n c results regex m :
  Map_get n (clients m) = Some c ->
  (searchStep searchIn n results regex m).2 = send (ReqListTools c) m.
Proof.
  intros Hn. unfold searchStep.
  pose proof (searchServer_state searchIn regex n c m Hn) as Hstate.
  destruct (searchServer searchIn regex n m) as [[[[mt|]|e] regex1] m1];
    simpl in *; by subst m1.
Qed.

Lemma searchLoop_state searchIn (entries : list (string * Client)) results
    regex m :
  Forall (fun entry => Map_get entry.1 (clients m) = Some entry.2) entries ->
  (searchLoop searchIn entries.*1 results regex m).2 =
    mkManager (clients m)
      (wire m ++ map (fun entry => ReqListTools entry.2) entries).
Proof.
  intros Hentries. revert results regex m Hentries.
  induction entries as [|[k c] entries IH]; intros results regex m Hentries;
    simpl.
  - rewrite app_nil_r. by destruct m.
  - apply Forall_cons in Hentries as [Hk Hentries]. simpl in Hk.
    pose proof (searchStep_state searchIn k c results regex m Hk) as Hstate.
    destruct (searchStep searchIn k results regex m) as [[r1 regex1] m1].
    simpl in Hstate. subst m1.
    rewrite IH by done. simpl. by rewrite <- app_assoc.
Qed.

Lemma Map_wf_entries {A} (l : list (string * A)) :
  Map_wf l -> Forall (fun entry => Map_get entry.1 l = Some entry.2) l.
Proof.
  unfold Map_wf, Map_keys, Map_get.
  induction l as [|[k v] l IH]; simpl; [done|].
  rewrite NoDup_cons. intros [Hk Hl]. constructor; simpl.
  - by rewrite String.eqb_refl.
  - eapply Forall_impl; [by apply IH|]. intros [k2 v2] Hk2; simpl in *.
    destruct (String.eqb_spec k k2) as [->|]; [|done].
    exfalso. apply Hk. apply list_elem_of_fmap. exists (k2, v2).
    split; [done|]. clear -Hk2. induction l as [|[k3 v3] l IH]; [done|].
    simpl in Hk2. destruct (String.eqb_spec k3 k2) as [->|].
    + injection Hk2 as ->. apply list_elem_of_here.
    + apply list_elem_of_further. by apply IH.
Qed.

(** X14: with a valid pattern [findTools] asks every connected server for
    its tools exactly once, in registry order, and does nothing else to the
    manager state: nothing is cached and the registry is untouched. *)
Theorem findTools_queries_each_server_once pattern options m matcher :
  regexp_compile pattern (negb (default false (opt_caseSensitive options)))
    = inr matcher ->
  Map_wf (clients m) ->
  (findTools pattern options m).2 =
    mkManager (clients m)
      (wire m ++ map (fun entry => ReqListTools entry.2) (clients m)).
Proof.
  intros Hok Hwf. unfold findTools, newRegExp. rewrite Hok.
  unfold getConnectedServers, Map_keys.
  case_bool_decide as Hempty.
  - destruct m as [[|? ?] w]; [|done]. simpl. by rewrite app_nil_r.
  - pose proof (searchLoop_state (default SearchBoth (opt_searchIn options))
                  (clients m) ∅ (mkRegExp _ matcher false 0) m
                  (Map_wf_entries _ Hwf)) as Hstate.
    unfold fmap, list_fmap in Hstate.
    by destruct (searchLoop _ _ _ _ _) as [[? ?] ?].
Qed.

Lemma toolMatches_nullish searchIn regex tool :
  nullish tool = true ->
  exists e regex', toolMatches searchIn regex tool = (Throw e, regex').
Proof.
  intros Htool. unfold toolMatches, fieldMatch.
  destruct tool; try discriminate; destruct searchIn; simpl; by eexists _, _.
Qed.

Lemma toolMatches_throws searchIn regex tool e regex' :
  toolMatches searchIn regex tool = (Throw e, regex') ->
  err_class e = TypeErrorE.
Proof.
  unfold toolMatches, fieldMatch.
  destruct tool, searchIn; simpl;
    repeat (case_match; simplify_eq; simpl); try done;
    by intros [= <- _].
Qed.

Lemma filterTools_nullish searchIn regex tools :
  Exists (fun t => nullish t = true) tools ->
  exists e regex',
    filterTools searchIn regex tools = (Throw e, regex') /\
    err_class e = TypeErrorE.
Proof.
  intros Hex. revert regex.
  induction Hex as [t tools Ht|t tools _ IH]; intros regex; simpl.
  - destruct (toolMatches_nullish searchIn regex t Ht) as (e & regex1 & Hrun).
    rewrite Hrun. exists e, regex1. split; [done|].
    by eapply toolMatches_throws.
  - destruct (toolMatches searchIn regex t) as [[b|e] regex1] eqn:Hrun.
    + destruct (IH regex1) as (e & regex2 & -> & He). by exists e, regex2.
    + exists e, regex1. split; [done|]. by eapply toolMatches_throws.
Qed.

(** X15: how [findTools] treats answers that are not tool lists.  A
    response whose tool collection is missing or not a sequence leaves no
    entry for the server and is no error.  For a server registered under a
    name other than [__proto__], a response that is [null] or [undefined],
    or a tool sequence with a [null] or [undefined] element, gives the
    server an error entry that reports the TypeError, however many
    well-formed tools the sequence has. *)
Theorem findTools_odd_answers pattern options m matcher :
  regexp_compile pattern (negb (default false (opt_caseSensitive options)))
    = inr matcher ->
  exists results,
    (findTools pattern options m).1 = Ok results /\
    forall n c response,
      Map_get n (clients m) = Some c ->
      client_listTools c = Ok response ->
      (forall tools, getProp response "tools" = Ok tools ->
         truthy tools && isArray tools = false -> results !! n = None) /\
      (forall e, n <> "__proto__" -> getProp response "tools" = Throw e ->
         results !! n =
           Some [JObj [("error",
                        JStr ("Failed to search tools: " ++ message e))]] /\
         err_class e = TypeErrorE) /\
      (forall items, n <> "__proto__" ->
         getProp response "tools" = Ok (JArr items) ->
         Exists (fun t => nullish t = true) items ->
         exists e, err_class e = TypeErrorE /\
           results !! n =
             Some [JObj [("error",
                          JStr ("Failed to search tools: " ++ message e))]]).
Proof.
  intros Hok.
  destruct (findTools_lookup pattern options m matcher Hok)
    as (results & m' & Hrun & _ & Hlook).
  exists results. rewrite Hrun. split; [done|].
  intros n c response Hn Hc. rewrite (Hlook n).
  rewrite decide_True by (by eapply Map_get_keys).
  unfold searchServer. rewrite (listTools_connected n c), Hc by done.
  split; [|split].
  - intros tools -> Hbad. rewrite Hbad. unfold stored.
    by destruct (String.eqb n "__proto__").
  - intros e Hname He. rewrite stored_other by done. rewrite He.
    split; [done|]. destruct response; simpl in He; by simplify_eq.
  - intros items Hname -> Hex. rewrite stored_other by done. simpl.
    destruct (filterTools_nullish (default SearchBoth (opt_searchIn options))
                (mkRegExp _ matcher false 0) items Hex)
      as (e & regex' & -> & He).
    by exists e.
Qed.

End MoreQueries.

(** * Properties of the configuration loader *)

Section MoreConfig.
Context `{RT : Runtime} `{HT : Host}.

Ltac run :=
  unfold mbind, mret, M_bind, M_ret, Result_bind, throw, lift, try_catch,
    clients_has in *; simpl in *.

Lemma findIndex_first {A} (p : A -> bool) pre x post :
  Forall (fun y => p y = false) pre -> p x = true ->
  findIndex p (pre ++ x :: post) = Some (length pre).
Proof.
  intros Hpre Hx. induction Hpre as [|y pre Hy _ IH]; simpl.
  - by rewrite Hx.
  - by rewrite Hy, IH.
Qed.

Lemma findIndex_none {A} (p : A -> bool) l :
  Forall (fun y => p y = false) l -> findIndex p l = None.
Proof.
  induction 1 as [|y l Hy _ IH]; simpl; [done|]. by rewrite Hy, IH.
Qed.

(** X16: where the configuration path comes from.  A path given to the
    constructor wins over everything; otherwise a non-empty
    [MCP_CONFIG_PATH] wins; otherwise the argument that follows the first
    [--config-path] on the command line is taken, whether or not a default
    file exists. *)
Theorem config_path_precedence :
  (forall given, given <> "" ->
     initialConfigPath (Some given) = Some given) /\
  (forall fromEnv,
     nonEmpty (process_env !! "MCP_CONFIG_PATH") = Some fromEnv ->
     findConfigPath = Some fromEnv /\
     initialConfigPath None = Some fromEnv) /\
  (forall pre value post,
     nonEmpty (process_env !! "MCP_CONFIG_PATH") = None ->
     argv = (pre ++ "--config-path" :: value :: post)%list ->
     "--config-path" ∉ pre ->
     findConfigPath = Some value).
Proof.
  split; [|split].
  - intros given Hg. unfold initialConfigPath, nonEmpty.
    by destruct (String.eqb_spec given "").
  - intros fromEnv He. unfold initialConfigPath, findConfigPath; simpl.
    by rewrite He.
  - intros pre value post He Hargv Hpre. unfold findConfigPath.
    rewrite He, Hargv.
    rewrite findIndex_first.
    + rewrite length_app; simpl.
      destruct (Nat.ltb_spec (length pre) (length pre + S (S (length post)) - 1));
        [|lia].
      rewrite lookup_app_r by lia.
      by replace (S (length pre) - length pre) with 1 by lia.
    + apply Forall_forall. intros y Hy.
      destruct (String.eqb_spec y "--config-path") as [->|]; done.
    + done.
Qed.

(** X17: the fallback to the default files.  Without [MCP_CONFIG_PATH],
    and when [--config-path] is absent or its first occurrence is the last
    argument, the path is the first default file that exists, the relative
    one before the one under the working directory, and there is no path
    when neither exists. *)
Theorem config_path_fallback :
  nonEmpty (process_env !! "MCP_CONFIG_PATH") = None ->
  "--config-path" ∉ argv \/
  (exists pre, argv = (pre ++ ["--config-path"])%list /\
               "--config-path" ∉ pre) ->
  (existsSync "./mcp-config.json" = true ->
   findConfigPath = Some "./mcp-config.json") /\
  (existsSync "./mcp-config.json" = false ->
   existsSync (path_join cwd "mcp-config.json") = true ->
   findConfigPath = Some (path_join cwd "mcp-config.json")) /\
  (existsSync "./mcp-config.json" = false ->
   existsSync (path_join cwd "mcp-config.json") = false ->
   findConfigPath = None).
Proof.
  intros He Hargv.
  assert (findConfigPath = firstThat existsSync defaultPaths) as ->.
  { unfold findConfigPath. rewrite He.
    assert (forall l : list string, "--config-path" ∉ l ->
              Forall (fun y => String.eqb y "--config-path" = false) l) as Hno.
    { intros l Hl. apply Forall_forall. intros y Hy.
      destruct (String.eqb_spec y "--config-path") as [->|]; done. }
    destruct Hargv as [Habsent|(pre & -> & Hpre)].
    - by rewrite findIndex_none by (by apply Hno).
    - rewrite findIndex_first by (by try apply Hno).
      rewrite length_app; simpl.
      by destruct (Nat.ltb_spec (length pre) (length pre + 1 - 1)); [lia|]. }
  unfold defaultPaths; simpl. repeat split.
  - by intros ->.
  - by intros -> ->.
  - by intros -> ->.
Qed.

(** X18: the two fatal cases of [loadFromConfig].  Without a path, from the
    argument or from the constructor, it throws the path-not-specified
    error; when the file cannot be read or parsed it throws the load error
    that names the path and carries the cause.  In both cases no connection
    is attempted and the manager state is as before. *)
Theorem loadFromConfig_fatal thisConfigPath configPath m :
  (orElse configPath thisConfigPath = None ->
   loadFromConfig thisConfigPath configPath m = (Throw pathNotSpecified, m)) /\
  (forall path e,
     orElse configPath thisConfigPath = Some path ->
     readFileSync path = Throw e \/
     (exists content, readFileSync path = Ok content /\
                      JSON_parse content = Throw e) ->
     loadFromConfig thisConfigPath configPath m =
       (Throw (loadFailed path e), m) /\
     message (loadFailed path e) =
       "Failed to load configuration file '" ++ path ++ "': " ++ message e).
Proof.
  unfold loadFromConfig. split.
  - by intros ->.
  - intros path e -> Hfail. split; [|done]. unfold loadConfigFile. run.
    destruct Hfail as [->|(content & -> & ->)]; done.
Qed.

Lemma loadEntry_run n p m :
  exists m1,
    loadEntry (n, p) m = (Ok (), m1) /\
    clients m1 =
      (if Map_has n (clients m) then clients m
       else match dial n p with
            | Some c => Map_set n c (clients m)
            | None => clients m
            end) /\
    (Map_has n (clients m) = true -> m1 = m).
Proof.
  unfold loadEntry. run. destruct (Map_has n (clients m)) eqn:Hn.
  - by exists m.
  - rewrite connect_fresh by done. unfold dial.
    destruct (transportOf n p) as [t|]; [|by exists m].
    destruct (client_connect (clientName n) t); eexists; by repeat split.
Qed.

Lemma forEach_cons {A} (f : A -> M unit) x l m :
  forEach f (x :: l) m =
    match f x m with
    | (Ok _, m') => forEach f l m'
    | (Throw e, m') => (Throw e, m')
    end.
Proof. done. Qed.

Lemma forEach_loadEntry entries m :
  exists m',
    forEach loadEntry entries m = (Ok (), m') /\
    (forall k, Map_get k (clients m') =
       match Map_get k (clients m) with
       | Some c => Some c
       | None => firstDial k entries
       end) /\
    (Map_wf (clients m) -> Map_wf (clients m')) /\
    (Forall (fun entry => Map_has entry.1 (clients m) = true) entries ->
     m' = m).
Proof.
  revert m. induction entries as [|[n p] entries IH]; intros m.
  - exists m. repeat split; try done. intros k. simpl.
    by destruct (Map_get k _).
  - destruct (loadEntry_run n p m) as (m1 & Hrun & Hcl & Hsame).
    destruct (IH m1) as (m' & Hloop & Hlook & Hwf & Hskip).
    exists m'. rewrite forEach_cons, Hrun.
    split; [done|]. simpl. split; [|split].
    + intros k. rewrite Hlook, Hcl.
      destruct (Map_has n (clients m)) eqn:Hn.
      * destruct (Map_get k (clients m)) eqn:Hk; [done|].
        destruct (String.eqb_spec n k) as [->|]; [|done].
        apply Map_has_get in Hn as [? Hn]. congruence.
      * apply Map_has_None in Hn.
        destruct (String.eqb_spec n k) as [->|Hne].
        -- rewrite Hn. destruct (dial k p) as [c|]; [|by rewrite Hn].
           by rewrite Map_get_set.
        -- destruct (dial n p) as [c|]; [|done].
           by rewrite Map_get_set_ne.
    + intros Hm. apply Hwf. rewrite Hcl.
      destruct (Map_has n (clients m)) eqn:Hn; [done|].
      destruct (dial n p); [|done]. by apply Map_wf_set_fresh.
    + intros [Hn Hrest]%Forall_cons. simpl in Hn.
      rewrite (Hsame Hn) in *. by apply Hskip.
Qed.

Lemma loadFromConfig_run thisConfigPath configPath path config m :
  orElse configPath thisConfigPath = Some path ->
  loadConfigFile path = Ok config ->
  loadFromConfig thisConfigPath configPath m =
    forEach loadEntry (default [] (mcpServers config)) m.
Proof.
  intros Hpath Hload. unfold loadFromConfig. rewrite Hpath. run.
  rewrite Hload. by destruct (mcpServers config) as [[|? ?]|].
Qed.

Lemma firstDial_None k entries :
  k ∉ entries.*1 -> firstDial k entries = None.
Proof.
  induction entries as [|[n p] entries IH]; simpl; [done|].
  intros [Hne Hk]%not_elem_of_cons.
  destruct (String.eqb_spec n k); [congruence|]. by apply IH.
Qed.

Lemma firstDial_NoDup n p entries :
  NoDup entries.*1 -> (n, p) ∈ entries -> firstDial n entries = dial n p.
Proof.
  induction entries as [|[n2 p2] entries IH]; simpl.
  - by intros _ ?%elem_of_nil.
  - intros [Hn2 Hnd]%NoDup_cons [[= -> ->]|Hin]%elem_of_cons.
    + rewrite String.eqb_refl. destruct (dial n2 p2); [done|].
      by apply firstDial_None.
    + destruct (String.eqb_spec n2 n) as [->|]; [|by apply IH].
      exfalso. apply Hn2. apply list_elem_of_fmap. by exists (n, p).
Qed.

(** X19: once the configuration file has loaded, [loadFromConfig] returns
    normally whatever happens to the connections it attempts.  Every session
    that was registered is still registered, unchanged; a name registered
    afterwards was registered before or is a name of the configuration; and
    the keys of the registry stay distinct. *)
Theorem loadFromConfig_isolates_failures thisConfigPath configPath path
    config m :
  orElse configPath thisConfigPath = Some path ->
  loadConfigFile path = Ok config ->
  exists m',
    loadFromConfig thisConfigPath configPath m = (Ok (), m') /\
    (forall k c, Map_get k (clients m) = Some c ->
       Map_get k (clients m') = Some c) /\
    (forall k, is_Some (Map_get k (clients m')) ->
       is_Some (Map_get k (clients m)) \/
       k ∈ (default [] (mcpServers config)).*1) /\
    (Map_wf (clients m) -> Map_wf (clients m')).
Proof.
  intros Hpath Hload.
  rewrite (loadFromConfig_run _ _ path config) by done.
  destruct (forEach_loadEntry (default [] (mcpServers config)) m)
    as (m' & Hrun & Hlook & Hwf & _).
  exists m'. split; [done|]. split; [|split; [|done]].
  - intros k c Hk. by rewrite Hlook, Hk.
  - intros k. rewrite Hlook.
    destruct (Map_get k (clients m)) as [c|]; [by left; eexists|].
    intros Hdial. right.
    destruct (decide (k ∈ (default [] (mcpServers config)).*1)); [done|].
    rewrite firstDial_None in Hdial by done. by destruct Hdial.
Qed.

(** X20: what [loadFromConfig] connects.  For a configuration with distinct
    names and a name that was not connected, the session registered after
    loading is exactly the one a connection attempt with that entry's
    parameters yields: the client of the handshake when validation and
    handshake succeed, and none when either fails. *)
Theorem loadFromConfig_connects thisConfigPath configPath path config m n p :
  orElse configPath thisConfigPath = Some path ->
  loadConfigFile path = Ok config ->
  NoDup (default [] (mcpServers config)).*1 ->
  (n, p) ∈ default [] (mcpServers config) ->
  Map_get n (clients m) = None ->
  Map_get n (clients (loadFromConfig thisConfigPath configPath m).2) =
    dial n p.
Proof.
  intros Hpath Hload Hnd Hin Hn.
  rewrite (loadFromConfig_run _ _ path config) by done.
  destruct (forEach_loadEntry (default [] (mcpServers config)) m)
    as (m' & -> & Hlook & _). simpl.
  rewrite Hlook, Hn. by apply firstDial_NoDup.
Qed.

(** X21: loading a configuration all of whose servers are already
    connected, or which lists no server, sends nothing and leaves the
    manager state as it is: entries under a connected name are skipped
    without looking at their parameters. *)
Theorem loadFromConfig_skips_connected thisConfigPath configPath path config
    m :
  orElse configPath thisConfigPath = Some path ->
  loadConfigFile path = Ok config ->
  Forall (fun entry => is_Some (Map_get entry.1 (clients m)))
         (default [] (mcpServers config)) ->
  loadFromConfig thisConfigPath configPath m = (Ok (), m).
Proof.
  intros Hpath Hload Hall.
  rewrite (loadFromConfig_run _ _ path config) by done.
  destruct (forEach_loadEntry (default [] (mcpServers config)) m)
    as (m' & -> & _ & _ & Hskip).
  rewrite Hskip; [done|].
  eapply Forall_impl; [done|]. intros entry. by rewrite Map_has_get.
Qed.

End MoreConfig.

(** ** The sample engine searches forward *)

Section EngineFacts.

Lemma searchFrom_found ic r s tries i e :
  Engine.searchFrom ic r s tries i = Some e ->
  exists i', i <= i' <= i + tries /\ is_Some (Engine.rmatch ic r s Some i').
Proof.
  revert i. induction tries as [|tries IH]; intros i; simpl.
  - destruct (Engine.rmatch ic r s Some i) eqn:Hi; [|done].
    intros _. exists i. split; [lia|]. by rewrite Hi.
  - destruct (Engine.rmatch ic r s Some i) eqn:Hi.
    + intros _. exists i. split; [lia|]. by rewrite Hi.
    + intros (i' & Hi' & Hm)%IH. exists i'. split; [lia|done].
Qed.

Lemma searchFrom_finds ic r s tries i i' :
  i <= i' <= i + tries ->
  is_Some (Engine.rmatch ic r s Some i') ->
  is_Some (Engine.searchFrom ic r s tries i).
Proof.
  revert i. induction tries as [|tries IH]; intros i Hi' Hm; simpl.
  - assert (i' = i) as -> by lia. by destruct Hm as [e ->].
  - destruct (Engine.rmatch ic r s Some i) eqn:Hi; [done|].
    apply IH; [|done]. destruct (decide (i' = i)) as [->|]; [|lia].
    rewrite Hi in Hm. by destruct Hm.
Qed.

Lemma engine_searchesForward (matcher : bool * Engine.re) :
  searchesForward (RT := Sample.runtime) matcher.
Proof.
  intros s i e. simpl. unfold Engine.search.
  destruct (Nat.ltb_spec (String.length s) i); [done|]. simpl.
  intros (i' & Hi' & Hm)%searchFrom_found.
  eapply searchFrom_finds; [|done]. lia.
Qed.

End EngineFacts.

(** ** The further properties on the sample servers *)

Section OnFixtures.
Import Sample Fixtures.

Lemma connect_validation_sends_nothing_witness :
  Map_get "new" (clients hub) = None /\
  connectToServer "new" noParams hub = (Throw (requiresUrl "new"), hub) /\
  connectToServer "new" (kindOnly "http") hub
    = (Throw (requiresUrl "new"), hub) /\
  connectToServer "new" (http "not a url") hub
    = (Throw (mkError TypeErrorE "Invalid URL"), hub) /\
  connectToServer "new" (kindOnly "sse") hub
    = (Throw (requiresCommand "new"), hub).
Proof.
  split; [reflexivity|]. split; [|split; [|split]].
  - exact (proj1 (proj1 (connect_validation_sends_nothing "new" noParams hub
                           eq_refl)
                        (or_intror (conj eq_refl eq_refl))) eq_refl).
  - exact (proj1 (proj1 (connect_validation_sends_nothing "new"
                           (kindOnly "http") hub eq_refl)
                        (or_introl eq_refl)) eq_refl).
  - exact (proj2 (proj1 (connect_validation_sends_nothing "new"
                           (http "not a url") hub eq_refl)
                        (or_intror (conj eq_refl eq_refl)))
                 "not a url" eq_refl eq_refl).
  - exact (proj2 (connect_validation_sends_nothing "new" (kindOnly "sse") hub
                    eq_refl)
                 "sse" eq_refl ltac:(discriminate) eq_refl).
Defined.

Lemma connect_handshake_failure_witness :
  let t := StdioClientTransport "nope" [] (∅ ∪ process_env) in
  Map_get "ghost" (clients hub) = None /\
  transportOf "ghost" (stdio "nope") = Ok t /\
  client_connect (clientName "ghost") t
    = Throw (newError "spawn nope ENOENT") /\
  connectToServer "ghost" (stdio "nope") hub =
    (Throw (connectFailed "ghost" (newError "spawn nope ENOENT")),
     mkManager (clients hub)
               (wire hub ++ [ReqConnect (clientName "ghost") t])) /\
  message (connectFailed "ghost" (newError "spawn nope ENOENT")) =
    "Failed to connect to server 'ghost': spawn nope ENOENT".
Proof.
  intros t. do 3 (split; [reflexivity|]).
  exact (connect_handshake_failure "ghost" (stdio "nope") hub t
           (newError "spawn nope ENOENT") eq_refl eq_refl eq_refl).
Defined.

Lemma connect_transport_witness :
  let p := withEnv "npx" {[ "FOO" := "override"; "__proto__" := "x" ]} in
  Map_get "new" (clients hub) = None /\
  (exists env,
     wire (connectToServer "new" p hub).2 =
       [ReqConnect (clientName "new") (StdioClientTransport "npx" [] env)] /\
     env !! "FOO" = Some "override" /\
     env !! "__proto__" = None) /\
  wire (connectToServer "new" (http "https://example.org/mcp") hub).2 =
    [ReqConnect (clientName "new")
       (StreamableHTTPClientTransport "https://example.org/mcp" None)].
Proof.
  intros p. split; [reflexivity|]. split.
  - destruct (proj1 (connect_transport "new" p hub eq_refl)
                    "npx" ltac:(discriminate) eq_refl)
      as (env & Hwire & Henv & Hproto).
    exists env. split; [exact Hwire|].
    split; [exact (Henv "FOO" ltac:(discriminate))|exact Hproto].
  - exact (proj2 (connect_transport "new" (http "https://example.org/mcp") hub
                    eq_refl)
                 "https://example.org/mcp" "https://example.org/mcp"
                 eq_refl eq_refl eq_refl).
Defined.

Lemma connect_extends_registry_witness :
  let m' := (connectToServer "new" (stdio "npx") hub).2 in
  connectToServer "new" (stdio "npx") hub = (Ok (), m') /\
  exists c,
    dial "new" (stdio "npx") = Some c /\
    clients m' = (clients hub ++ [("new", c)])%list /\
    getConnectedServers m' = ["fs"; "bad"; "idle"; "odd"; "new"] /\
    Map_get "new" (clients m') = Some c /\
    Map_get "fs" (clients m') = Some filesystem /\
    Map_wf (clients m').
Proof.
  intros m'.
  assert (connectToServer "new" (stdio "npx") hub = (Ok (), m')) as Hok
    by reflexivity.
  split; [exact Hok|].
  destruct (connect_extends_registry "new" (stdio "npx") hub m' Hok)
    as (c & Hdial & Hcl & Hnames & Hget & Hother & Hwf).
  exists c. split; [exact Hdial|]. split; [exact Hcl|].
  split; [exact Hnames|]. split; [exact Hget|].
  split; [exact (Hother "fs" ltac:(discriminate))|exact (Hwf hub_wf)].
Defined.

Lemma connect_disconnect_round_trip_witness :
  let m1 := (connectToServer "new" (stdio "npx") hub).2 in
  let c := mkClient (clientName "new") (client_listTools filesystem) noCalls
             (Ok ()) in
  connectToServer "new" (stdio "npx") hub = (Ok (), m1) /\
  Map_get "new" (clients m1) = Some c /\
  client_close c = Ok () /\
  exists m2, disconnectServer "new" m1 = (Ok (), m2) /\
             clients m2 = clients hub.
Proof.
  intros m1 c. do 3 (split; [reflexivity|]).
  exact (connect_disconnect_round_trip "new" (stdio "npx") hub m1 c
           eq_refl eq_refl eq_refl).
Defined.

Lemma disconnectAll_closes_everything_witness :
  Forall (fun entry => client_close entry.2 = Ok ()) (clients calm) /\
  disconnectAll calm =
    (Ok (), mkManager [] [ReqClose filesystem; ReqClose idle]).
Proof.
  assert (Forall (fun entry : string * Client => client_close entry.2 = Ok ())
            (clients calm)) as Hall by (repeat constructor).
  split; [exact Hall|]. exact (disconnectAll_closes_everything calm Hall).
Defined.

Lemma lifecycle_keeps_keys_distinct_witness :
  Map_wf (clients hub) /\
  Map_wf (clients (connectToServer "new" (stdio "npx") hub).2) /\
  Map_wf (clients (disconnectServer "fs" hub).2) /\
  Map_wf (clients (disconnectAll hub).2).
Proof.
  split; [exact hub_wf|].
  destruct (lifecycle_keeps_keys_distinct hub hub_wf) as (Hc & Hd & Ha).
  split; [exact (Hc "new" (stdio "npx"))|]. split; [exact (Hd "fs")|exact Ha].
Defined.

Lemma not_connected_errors_witness :
  Map_get "nowhere" (clients hub) = None /\
  listTools "nowhere" hub = (Throw (notConnected "nowhere"), hub) /\
  callTool "nowhere" "ReadFile" (JObj []) hub
    = (Throw (notConnected "nowhere"), hub) /\
  getTool "nowhere" "ReadFile" hub = (Throw (notConnected "nowhere"), hub) /\
  listToolsInServer "nowhere" hub = (Throw (notConnected "nowhere"), hub) /\
  findToolsInServer "nowhere" "(" SearchBoth false hub
    = (Throw (notConnected "nowhere"), hub) /\
  disconnectServer "nowhere" hub = (Throw (notConnected "nowhere"), hub).
Proof.
  split; [reflexivity|].
  destruct (not_connected_errors "nowhere" hub eq_refl)
    as (H1 & H2 & H3 & H4 & H5 & H6).
  split; [exact H1|]. split; [exact (H2 _ _)|]. split; [exact (H3 _)|].
  split; [exact H4|]. split; [exact (H5 _ _ _)|exact H6].
Defined.

Lemma query_is_one_round_trip_witness :
  Map_get "fs" (clients hub) = Some filesystem /\
  listTools "fs" hub =
    (Ok (toolsResponse [readFile; file]), send (ReqListTools filesystem) hub) /\
  callTool "fs" "ReadFile" (JObj []) hub =
    (Throw (newError "Unknown tool: ReadFile"),
     send (ReqCallTool filesystem "ReadFile" (JObj [])) hub) /\
  (getTool "fs" "WriteFile" hub).2 = send (ReqListTools filesystem) hub /\
  (listToolsInServer "fs" hub).2 = send (ReqListTools filesystem) hub /\
  (findToolsInServer "fs" "(" SearchBoth false hub).2
    = send (ReqListTools filesystem) hub.
Proof.
  split; [reflexivity|].
  destruct (query_is_one_round_trip "fs" filesystem hub eq_refl)
    as (H1 & H2 & H3 & H4 & H5).
  split; [exact H1|]. split; [exact (H2 _ _)|]. split; [exact (H3 _)|].
  split; [exact H4|exact (H5 _ _ _)].
Defined.

Lemma getTool_failures_witness :
  (getTool "bad" "ReadFile" hub).1 = Throw (newError "Connection closed") /\
  (getTool "odd" "ReadFile" hub).1
    = Throw (newError "No tools found on server 'odd'") /\
  (getTool "fs" "readfile" hub).1
    = Throw (newError "Tool 'readfile' not found on server 'fs'").
Proof.
  split; [|split].
  - exact (proj1 (getTool_failures "bad" broken "ReadFile" hub eq_refl)
                 _ eq_refl).
  - exact (proj1 (proj2 (getTool_failures "odd" malformed "ReadFile" hub
                           eq_refl))
                 (JObj []) JUndefined eq_refl eq_refl eq_refl).
  - exact (proj2 (proj2 (getTool_failures "fs" filesystem "readfile" hub
                           eq_refl))
                 (toolsResponse [readFile; file]) [readFile; file]
                 eq_refl eq_refl ltac:(repeat constructor)
                 ltac:(repeat constructor)).
Defined.

Lemma findToolsInServer_invalid_pattern_witness :
  regexp_compile "(" (negb false) = inl unterminated /\
  findToolsInServer "fs" "(" SearchBoth false hub =
    (Throw (mkError SyntaxErrorE unterminated),
     send (ReqListTools filesystem) hub) /\
  findToolsInServer "odd" "(" SearchBoth false hub =
    (Ok [], send (ReqListTools malformed) hub).
Proof.
  split; [reflexivity|]. split.
  - exact (findToolsInServer_invalid_pattern "fs" filesystem
             (toolsResponse [readFile; file]) (JArr [readFile; file])
             "(" SearchBoth false unterminated hub
             eq_refl eq_refl eq_refl eq_refl).
  - exact (findToolsInServer_invalid_pattern "odd" malformed
             (JObj []) JUndefined "(" SearchBoth false unterminated hub
             eq_refl eq_refl eq_refl eq_refl).
Defined.

Lemma findToolsInServer_first_match_witness :
  regexp_compile "file" (negb false) = inr (true, literal "file") /\
  regexp_compile "socket" (negb false) = inr (true, literal "socket") /\
  findToolsInServer "fs" "socket" SearchBoth false hub =
    (Ok [], send (ReqListTools filesystem) hub) /\
  exists rest,
    findToolsInServer "fs" "file" SearchName false hub =
      (Ok (entryOf readFile :: rest), send (ReqListTools filesystem) hub).
Proof.
  do 2 (split; [reflexivity|]). split.
  - exact (proj1 (findToolsInServer_first_match (RT := runtime) "fs"
                    filesystem (toolsResponse [readFile; file])
                    [readFile; file] "socket" SearchBoth false
                    (true, literal "socket") hub
                    eq_refl eq_refl eq_refl ltac:(repeat constructor) eq_refl)
                 ltac:(repeat constructor)).
  - exact (proj2 (findToolsInServer_first_match (RT := runtime) "fs"
                    filesystem (toolsResponse [readFile; file])
                    [readFile; file] "file" SearchName false
                    (true, literal "file") hub
                    eq_refl eq_refl eq_refl ltac:(repeat constructor) eq_refl)
                 [] readFile [file] eq_refl ltac:(constructor) eq_refl).
Defined.

Lemma findToolsInServer_only_matches_witness :
  searchesForward (RT := runtime) (true, literal "file") /\
  exists kept,
    [entryOf readFile] = entryOf <$> kept /\
    kept `sublist_of`
      List.filter (matchesTool (RT := runtime) (true, literal "file")
                     SearchName) [readFile; file].
Proof.
  split; [apply engine_searchesForward|].
  exact (findToolsInServer_only_matches (RT := runtime) "fs" filesystem
           (toolsResponse [readFile; file]) [readFile; file] "file"
           SearchName false (true, literal "file") hub
           [entryOf readFile] (send (ReqListTools filesystem) hub)
           (engine_searchesForward _) eq_refl eq_refl eq_refl
           ltac:(repeat constructor) eq_refl eq_refl).
Defined.

Lemma findTools_queries_each_server_once_witness :
  regexp_compile "file" (negb (default false (opt_caseSensitive noOptions)))
    = inr (true, literal "file") /\
  Map_wf (clients hub) /\
  (findTools "file" noOptions hub).2 =
    mkManager (clients hub)
      [ReqListTools filesystem; ReqListTools broken; ReqListTools idle;
       ReqListTools malformed].
Proof.
  split; [reflexivity|]. split; [exact hub_wf|].
  exact (findTools_queries_each_server_once (RT := runtime) "file" noOptions
           hub (true, literal "file") eq_refl hub_wf).
Defined.

Lemma findTools_odd_answers_witness :
  regexp_compile "file" (negb (default false (opt_caseSensitive noOptions)))
    = inr (true, literal "file") /\
  exists results,
    (findTools "file" noOptions depot).1 = Ok results /\
    results !! "odd" = None /\
    results !! "silent" =
      Some [JObj [("error",
                   JStr ("Failed to search tools: "
                         ++ "Cannot read properties of null (reading 'tools')"))]]
    /\
    exists e, err_class e = TypeErrorE /\
      results !! "leaky" =
        Some [JObj [("error",
                     JStr ("Failed to search tools: " ++ message e))]].
Proof.
  split; [reflexivity|].
  destruct (findTools_odd_answers (RT := runtime) "file" noOptions depot
              (true, literal "file") eq_refl) as (results & Hrun & Hany).
  exists results. split; [exact Hrun|]. split; [|split].
  - exact (proj1 (Hany "odd" malformed (JObj []) eq_refl eq_refl)
                 JUndefined eq_refl eq_refl).
  - exact (proj1 (proj1 (proj2 (Hany "silent" silent JNull eq_refl eq_refl))
                        _ ltac:(discriminate) eq_refl)).
  - exact (proj2 (proj2 (Hany "leaky" leaky (toolsResponse [readFile; JNull])
                           eq_refl eq_refl))
                 [readFile; JNull] ltac:(discriminate) eq_refl
                 ltac:(apply Exists_cons_tl, Exists_cons_hd; reflexivity)).
Defined.

Lemma config_path_precedence_witness :
  initialConfigPath (RT := runtimeWithEnv) (HT := host) (Some "/home/me.json")
    = Some "/home/me.json" /\
  findConfigPath (RT := runtimeWithEnv) (HT := host) = Some "/opt/hub.json" /\
  initialConfigPath (RT := runtimeWithEnv) (HT := host) None
    = Some "/opt/hub.json" /\
  findConfigPath (RT := runtime) (HT := host) = Some "/etc/hub.json".
Proof.
  split; [|split; [|split]].
  - exact (proj1 (config_path_precedence (RT := runtimeWithEnv) (HT := host))
                 "/home/me.json" ltac:(discriminate)).
  - exact (proj1 (proj1 (proj2 (config_path_precedence (RT := runtimeWithEnv)
                                  (HT := host)))
                        "/opt/hub.json" eq_refl)).
  - exact (proj2 (proj1 (proj2 (config_path_precedence (RT := runtimeWithEnv)
                                  (HT := host)))
                        "/opt/hub.json" eq_refl)).
  - exact (proj2 (proj2 (config_path_precedence (RT := runtime) (HT := host)))
                 ["node"; "hub.js"] "/etc/hub.json" [] eq_refl eq_refl
                 ltac:(apply (bool_decide_unpack _); vm_compute; exact I)).
Defined.

Lemma config_path_fallback_witness :
  nonEmpty (@process_env runtime !! "MCP_CONFIG_PATH") = None /\
  findConfigPath (RT := runtime) (HT := dangling)
    = Some "/srv/mcp-config.json" /\
  findConfigPath (RT := runtime)
                 (HT := hostWith ["node"; "hub.js"] (fun _ => false)) = None /\
  findConfigPath (RT := runtime)
                 (HT := hostWith ["node"; "hub.js"] (fun _ => true))
    = Some "./mcp-config.json".
Proof.
  assert ("--config-path" ∉ ["node"; "hub.js"]) as Hno
    by (apply (bool_decide_unpack _); vm_compute; exact I).
  split; [reflexivity|]. split; [|split].
  - exact (proj1 (proj2 (config_path_fallback (RT := runtime) (HT := dangling)
                    eq_refl
                    (or_intror (ex_intro _ ["node"; "hub.js"]
                                  (conj eq_refl Hno)))))
                 eq_refl eq_refl).
  - exact (proj2 (proj2 (config_path_fallback (RT := runtime)
                    (HT := hostWith ["node"; "hub.js"] (fun _ => false))
                    eq_refl (or_introl Hno)))
                 eq_refl eq_refl).
  - exact (proj1 (config_path_fallback (RT := runtime)
                    (HT := hostWith ["node"; "hub.js"] (fun _ => true))
                    eq_refl (or_introl Hno))
                 eq_refl).
Defined.

Lemma loadFromConfig_fatal_witness :
  loadFromConfig (RT := runtime) (HT := host) None (Some "") hub
    = (Throw pathNotSpecified, hub) /\
  loadFromConfig (RT := runtime) (HT := host) None (Some "/etc/none.json") hub
    = (Throw (loadFailed "/etc/none.json" (enoent "/etc/none.json")), hub) /\
  loadFromConfig (RT := runtime) (HT := host) (Some "/etc/broken.json") None
                 hub
    = (Throw (loadFailed "/etc/broken.json"
                (mkError SyntaxErrorE "Unexpected end of JSON input")), hub).
Proof.
  split; [|split].
  - exact (proj1 (loadFromConfig_fatal (RT := runtime) (HT := host)
                    None (Some "") hub) eq_refl).
  - exact (proj1 (proj2 (loadFromConfig_fatal (RT := runtime) (HT := host)
                           None (Some "/etc/none.json") hub)
                        "/etc/none.json" (enoent "/etc/none.json") eq_refl
                        (or_introl eq_refl))).
  - exact (proj1 (proj2 (loadFromConfig_fatal (RT := runtime) (HT := host)
                           (Some "/etc/broken.json") None hub)
                        "/etc/broken.json"
                        (mkError SyntaxErrorE "Unexpected end of JSON input")
                        eq_refl
                        (or_intror (ex_intro _ "{" (conj eq_refl eq_refl))))).
Defined.

Lemma loadFromConfig_isolates_failures_witness :
  loadConfigFile (HT := host) "/etc/hub.json" = Ok config /\
  exists m',
    loadFromConfig (RT := runtime) (HT := host) None (Some "/etc/hub.json") hub
      = (Ok (), m') /\
    Map_get "fs" (clients m') = Some filesystem /\
    Map_get "bad" (clients m') = Some broken /\
    Map_wf (clients m').
Proof.
  split; [reflexivity|].
  destruct (loadFromConfig_isolates_failures (RT := runtime) (HT := host)
              None (Some "/etc/hub.json") "/etc/hub.json" config hub
              eq_refl eq_refl) as (m' & Hrun & Hkeep & _ & Hwf).
  exists m'. split; [exact Hrun|].
  split; [exact (Hkeep "fs" filesystem eq_refl)|].
  split; [exact (Hkeep "bad" broken eq_refl)|exact (Hwf hub_wf)].
Defined.

Lemma loadFromConfig_connects_witness :
  let m' := (loadFromConfig (RT := runtime) (HT := host) None
               (Some "/etc/hub.json") fresh).2 in
  NoDup (default [] (mcpServers config)).*1 /\
  is_Some (Map_get "fs" (clients m')) /\
  is_Some (Map_get "web" (clients m')) /\
  Map_get "ghost" (clients m') = None /\
  Map_get "nowhere" (clients m') = None.
Proof.
  intros m'.
  assert (NoDup (default [] (mcpServers config)).*1) as Hnd
    by (apply (bool_decide_unpack _); vm_compute; exact I).
  pose proof (fun n p Hin =>
    loadFromConfig_connects (RT := runtime) (HT := host) None
      (Some "/etc/hub.json") "/etc/hub.json" config fresh n p
      eq_refl eq_refl Hnd Hin eq_refl) as Hload.
  split; [exact Hnd|]. fold m' in Hload. split; [|split; [|split]].
  - rewrite (Hload "fs" (stdio "npx"))
      by (apply list_elem_of_here). by eexists.
  - rewrite (Hload "web" (http "https://example.org/mcp"))
      by (do 2 apply list_elem_of_further; apply list_elem_of_here).
    by eexists.
  - rewrite (Hload "ghost" (stdio "nope"))
      by (apply list_elem_of_further, list_elem_of_here). reflexivity.
  - rewrite (Hload "nowhere" (http "not a url"))
      by (do 3 apply list_elem_of_further; apply list_elem_of_here).
    reflexivity.
Defined.

Lemma loadFromConfig_skips_connected_witness :
  let m1 := (loadFromConfig (RT := runtime) (HT := host) None
               (Some "/etc/hub.json")
               (mkManager [("ghost", broken); ("nowhere", idle)] [])).2 in
  Forall (fun entry => is_Some (Map_get entry.1 (clients m1)))
         (default [] (mcpServers config)) /\
  loadFromConfig (RT := runtime) (HT := host) None (Some "/etc/hub.json") m1
    = (Ok (), m1).
Proof.
  intros m1.
  assert (Forall (fun entry : string * ConnectParams =>
                    is_Some (Map_get entry.1 (clients m1)))
            (default [] (mcpServers config))) as Hall
    by (repeat constructor; by eexists).
  split; [exact Hall|].
  exact (loadFromConfig_skips_connected (RT := runtime) (HT := host) None
           (Some "/etc/hub.json") "/etc/hub.json" config m1
           eq_refl eq_refl Hall).
Defined.

End OnFixtures.
